(** * marketo-mcp: the authenticated request pipeline

    A shallow embedding of the request pipeline of the Marketo MCP server:
    [validateMarketoUrl] and the configuration constants (constants.ts),
    [sanitizeErrorMessage], the start-up credential check and
    [makeApiRequest] (index.ts), and the [TokenManager] they use (auth.ts).

    Conventions.
    - A JavaScript string is modelled by the [string] of its UTF-8 bytes.
      Searching for, or cutting at, an ASCII text such as ['/'] or
      ['timeout'] means the same on bytes and on UTF-16 code units.
    - A JavaScript number is modelled by an integer [Z]; the numbers of this
      program are HTTP status codes, identifiers and counts.
    - [undefined] is [None] for an optional field and [JsUndefined] for a
      value.
    - Effects ([await], [console.error], [throw]) are explicit: an [IO]
      computation maps the outside world to a trace of events and either a
      thrown error or a value. *)

From Stdlib Require Import ZArith String Ascii List Bool Lia DecimalString.
Import ListNotations.

Set Warnings "-register-all".

Open Scope list_scope.
Open Scope string_scope.
Open Scope Z_scope.

(** ** JavaScript values and built-ins *)

Inductive JsValue : Type :=
| JsUndefined
| JsNull
| JsBool (b : bool)
| JsNumber (n : Z)
| JsString (s : string)
| JsArray (items : list JsValue)
| JsObject (props : list (string * JsValue)).

(** [String(n)] and [`${n}`] for an integer [n]. *)
Definition Number_toString (n : Z) : string :=
  NilZero.string_of_int (Z.to_int n).

(** [hay.includes(needle)]. *)
Fixpoint includes (hay needle : string) : bool :=
  prefix needle hay ||
  match hay with
  | EmptyString => false
  | String _ rest => includes rest needle
  end.

(** [hay.endsWith(suffix)]. *)
Fixpoint endsWith (hay suffix : string) : bool :=
  String.eqb hay suffix ||
  match hay with
  | EmptyString => false
  | String _ rest => endsWith rest suffix
  end.

(** Truthiness of a string: [''] is falsy. *)
Definition truthy (s : string) : bool := negb (String.eqb s "").

(** [s || fallback] for an optional string [s]. *)
Definition or_else (s : option string) (fallback : string) : string :=
  match s with
  | Some v => if truthy v then v else fallback
  | None => fallback
  end.

(** [code === literal] for an optional string [code]. *)
Definition strict_eq (code : option string) (literal : string) : bool :=
  match code with
  | Some c => String.eqb c literal
  | None => false
  end.

(** ** Errors raised by the transport (axios) *)

Record AxiosRequestConfig : Type := {
  url : string;
  method : string;
  data : JsValue;
  headers : list (string * string);
  timeout : Z
}.

Record AxiosResponse : Type := {
  status : Z;
  statusText : option string;
  body : JsValue                  (* [response.data] *)
}.

(** What [catch (error: any)] can see of a thrown error: the fields that
    the program reads ([response], [code], [message]) and the request
    configuration that axios attaches, whose headers hold the bearer
    token. *)
Record JsError : Type := {
  response : option AxiosResponse;
  code : option string;
  message : option string;
  config : option AxiosRequestConfig
}.

(** [error.response?.status] when it is truthy. *)
Definition response_status (error : JsError) : option (Z * AxiosResponse) :=
  match response error with
  | Some r => if status r =? 0 then None else Some (status r, r)
  | None => None
  end.

(** [error.message?.includes(text)], [undefined] being falsy. *)
Definition message_includes (error : JsError) (text : string) : bool :=
  match message error with
  | Some m => includes m text
  | None => false
  end.

(** ** index.ts: [sanitizeErrorMessage] *)

Definition sanitizeErrorMessage (error : JsError) : string :=
  match response_status error with
  | Some (status, r) =>
      let statusText := or_else (statusText r) "Unknown error" in
      (* switch (status) *)
      if status =? 401 then
        "Authentication failed. Please check your Marketo credentials."
      else if status =? 403 then
        "Access denied. Insufficient permissions for this operation."
      else if status =? 404 then
        "Resource not found."
      else if status =? 429 then
        "Rate limit exceeded. Please try again later."
      else if (status =? 500) || (status =? 502) || (status =? 503) then
        "Marketo service temporarily unavailable. Please try again later."
      else
        "Request failed with status " ++ Number_toString status ++ ": " ++ statusText
  | None =>
      if strict_eq (code error) "ECONNREFUSED" || strict_eq (code error) "ENOTFOUND" then
        "Unable to connect to Marketo. Please check your network connection and MARKETO_BASE_URL."
      else if strict_eq (code error) "ECONNABORTED" || message_includes error "timeout" then
        "Request timed out. Please try again."
      else
        "An error occurred while processing your request."
  end.

(** The error taxonomy of the specification, and the fixed text that the
    program uses for each kind that has one. *)
Inductive ErrorKind : Type :=
| AuthFailed | Forbidden | NotFound | RateLimited
| UpstreamUnavailable | NetworkUnreachable | Timeout.

Definition generic_message (k : ErrorKind) : string :=
  match k with
  | AuthFailed => "Authentication failed. Please check your Marketo credentials."
  | Forbidden => "Access denied. Insufficient permissions for this operation."
  | NotFound => "Resource not found."
  | RateLimited => "Rate limit exceeded. Please try again later."
  | UpstreamUnavailable =>
      "Marketo service temporarily unavailable. Please try again later."
  | NetworkUnreachable =>
      "Unable to connect to Marketo. Please check your network connection and MARKETO_BASE_URL."
  | Timeout => "Request timed out. Please try again."
  end.

(** The kind that the taxonomy gives to each of the statuses
    401, 403, 404, 429, 500, 502, 503. *)
Definition kind_of_status (s : Z) : option ErrorKind :=
  if s =? 401 then Some AuthFailed
  else if s =? 403 then Some Forbidden
  else if s =? 404 then Some NotFound
  else if s =? 429 then Some RateLimited
  else if (s =? 500) || (s =? 502) || (s =? 503) then Some UpstreamUnavailable
  else None.

(** The triggers of the two transport conditions, each taken on its own. *)
Definition connection_refused (error : JsError) : bool :=
  strict_eq (code error) "ECONNREFUSED" || strict_eq (code error) "ENOTFOUND".

Definition timed_out (error : JsError) : bool :=
  strict_eq (code error) "ECONNABORTED" || message_includes error "timeout".

(** The order in which the triggers are tested: the response status
    first, then the connection-refused codes, then the timeout test. *)
Inductive triggers (error : JsError) : ErrorKind -> Prop :=
| by_status s r k :
    response_status error = Some (s, r) ->
    kind_of_status s = Some k ->
    triggers error k
| by_refusal :
    response_status error = None ->
    connection_refused error = true ->
    triggers error NetworkUnreachable
| by_timeout :
    response_status error = None ->
    connection_refused error = false ->
    timed_out error = true ->
    triggers error Timeout.

(** The same error carrying another response body and another request
    configuration (hence another bearer token). *)
Definition with_body (b : JsValue) (error : JsError) : JsError :=
  {| response :=
       match response error with
       | Some r => Some {| status := status r; statusText := statusText r; body := b |}
       | None => None
       end;
     code := code error;
     message := message error;
     config := config error |}.

Definition with_config (c : option AxiosRequestConfig) (error : JsError) : JsError :=
  {| response := response error;
     code := code error;
     message := message error;
     config := c |}.

(** ** The outside world and effectful computations *)

(** The parts of a parsed [URL] that the program reads. *)
Record URL : Type := {
  protocol : string;
  hostname : string
}.

Inductive Event : Type :=
| GetToken                                   (* await tokenManager.getToken() *)
| HttpCall (request : AxiosRequestConfig)    (* await axios(request) *)
| ConsoleError (line : string)
| ConsoleWarn (line : string).

(** Everything the program obtains from outside itself: the process
    environment, the platform's URL parser ([None] when [new URL] throws),
    the settlement of [tokenManager.getToken()] and the settlement of an
    axios call. *)
Record World : Type := {
  process_env : string -> option string;
  URL_new : string -> option URL;
  getToken_settles : JsError + string;
  axios_settles : AxiosRequestConfig -> JsError + AxiosResponse
}.

Definition IO (A : Type) : Type := World -> list Event * (JsError + A).

Definition ret {A} (a : A) : IO A := fun _ => ([], inr a).

Definition throw {A} (e : JsError) : IO A := fun _ => ([], inl e).

Definition bind {A B} (m : IO A) (k : A -> IO B) : IO B := fun w =>
  match m w with
  | (t, inl e) => (t, inl e)
  | (t, inr a) => let (t', r) := k a w in ((t ++ t')%list, r)
  end.

Definition try_catch {A} (m : IO A) (handler : JsError -> IO A) : IO A := fun w =>
  match m w with
  | (t, inl e) => let (t', r) := handler e w in ((t ++ t')%list, r)
  | (t, inr a) => (t, inr a)
  end.

Definition emit (e : Event) : IO unit := fun _ => ([e], inr tt).

Definition ask {A} (f : World -> A) : IO A := fun w => ([], inr (f w)).

Notation "x <- m ;; k" := (bind m (fun x => k))
  (at level 61, m at next level, right associativity).
Notation "m ;;; k" := (bind m (fun _ => k))
  (at level 61, right associativity).

(** [new Error(text)]. *)
Definition Error (text : string) : JsError :=
  {| response := None; code := None; message := Some text; config := None |}.

Definition trace {A} (r : list Event * (JsError + A)) : list Event := fst r.
Definition outcome {A} (r : list Event * (JsError + A)) : JsError + A := snd r.

(** The outbound HTTP calls of a trace, in order. *)
Fixpoint http_calls (t : list Event) : list AxiosRequestConfig :=
  match t with
  | [] => []
  | HttpCall q :: rest => q :: http_calls rest
  | _ :: rest => http_calls rest
  end.

(** How many times a trace asks the token manager for a token. *)
Fixpoint token_requests (t : list Event) : nat :=
  match t with
  | [] => O
  | GetToken :: rest => S (token_requests rest)
  | _ :: rest => token_requests rest
  end.

(** ** constants.ts *)

(** The value of [process.env.NAME || '']. *)
Definition configured (w : World) (name : string) : string :=
  or_else (process_env w name) "".

Definition env_or_empty (name : string) : IO string :=
  ask (fun w => configured w name).

(** The regular expression [/\/+$/] matches at the head of [s] when [s] is
    one or more ['/'] up to its end. *)
Fixpoint only_slashes (s : string) : bool :=
  match s with
  | EmptyString => true
  | String c rest => Ascii.eqb c "/" && only_slashes rest
  end.

Definition slashes_to_end (s : string) : bool :=
  match s with
  | EmptyString => false
  | String c rest => Ascii.eqb c "/" && only_slashes rest
  end.

(** [s.replace(/\/+$/, '')]: the leftmost position where the expression
    matches is looked for from the head of [s]; the match, which reaches the
    end of [s], is replaced by the empty string. *)
Fixpoint replace_trailing_slashes (s : string) : string :=
  if slashes_to_end s then ""
  else
    match s with
    | EmptyString => ""
    | String c rest => String c (replace_trailing_slashes rest)
    end.

Definition validateMarketoUrl (url : string) : IO string :=
  if negb (truthy url) then
    throw (Error "MARKETO_BASE_URL environment variable is required")
  else
    parsed <- ask (fun w => URL_new w url) ;;
    match parsed with
    | None => throw (Error ("MARKETO_BASE_URL is not a valid URL: " ++ url))
    | Some parsedUrl =>
        if negb (String.eqb (protocol parsedUrl) "https:") then
          throw (Error "MARKETO_BASE_URL must use HTTPS protocol for security")
        else
          (if negb (includes (hostname parsedUrl) "mktorest.com")
              && negb (includes (hostname parsedUrl) "marketo.com")
           then
             emit (ConsoleWarn
               ("Warning: MARKETO_BASE_URL does not appear to be a standard Marketo domain. "
                ++ "Ensure this is intentional."))
           else ret tt) ;;;
          ret (replace_trailing_slashes url)
    end.

(** A run of [n] slashes. *)
Fixpoint slashes (n : nat) : string :=
  match n with
  | O => ""
  | S k => String "/" (slashes k)
  end.

(** [s] parses as a URL whose protocol is [https:]. *)
Definition https_url (w : World) (s : string) : Prop :=
  exists u, URL_new w s = Some u /\ protocol u = "https:".

Definition API_REQUEST_TIMEOUT : Z := 30000.

Record Constants : Type := {
  MARKETO_BASE_URL : string;
  MARKETO_CLIENT_ID : string;
  MARKETO_CLIENT_SECRET : string
}.

(** Evaluation of the module constants.ts. *)
Definition constants : IO Constants :=
  rawBaseUrl <- env_or_empty "MARKETO_BASE_URL" ;;
  rawClientId <- env_or_empty "MARKETO_CLIENT_ID" ;;
  rawClientSecret <- env_or_empty "MARKETO_CLIENT_SECRET" ;;
  baseUrl <- validateMarketoUrl rawBaseUrl ;;
  ret {| MARKETO_BASE_URL := baseUrl;
         MARKETO_CLIENT_ID := rawClientId;
         MARKETO_CLIENT_SECRET := rawClientSecret |}.

(** ** auth.ts: [TokenManager] *)

Module TokenManager.

(** Modelled from the spec: auth.ts is not among the sources; the cached
    credential is the value object [{ token, expiresAt }] of section 3,
    with instants counted in seconds. *)
Record AccessToken : Type := {
  token : string;
  expiresAt : Z
}.

(** Modelled from the spec: the failure conditions of [getToken]
    (section 4.1: network failure, authentication rejection, malformed
    token-endpoint response) and the timeout of section 5. *)
Inductive Failure : Type :=
| NetworkFailure | AuthRejected | MalformedResponse | TimedOut.

(** Modelled from the spec: what the identity endpoint answers to a
    credential-grant request, [{access_token, expires_in}] or a failure. *)
Inductive Reply : Type :=
| Granted (access_token : string) (expires_in : Z)
| Refused (why : Failure).

(** Modelled from the spec: what one [getToken()] call resolves to. *)
Inductive Result : Type :=
| Resolved (token : string)
| Rejected (why : Failure).

(** Modelled from the spec: the manager owns the credential pair, the
    cached AccessToken and the PendingRefresh slot (section 3).  A pending
    refresh is the shared handle of one in-flight request; it is
    represented by the callers that await it, in order of arrival. *)
Record t : Type := {
  clientId : string;
  clientSecret : string;
  cached : option AccessToken;
  pending : option (list nat)
}.

(** Modelled from the spec: construction stores the credential pair; no
    token is cached and no refresh is pending. *)
Definition new (id secret : string) : t :=
  {| clientId := id; clientSecret := secret; cached := None; pending := None |}.

(** Modelled from the spec: what the manager does that can be observed
    from outside, a request sent to the token endpoint or a call
    resolved. *)
Inductive Output : Type :=
| TokenRequest
| Settled (caller : nat) (result : Result).

(** Modelled from the spec: under cooperative scheduling (section 5) the
    manager is driven by two kinds of step, a caller entering [getToken()]
    at some instant and the in-flight request completing. *)
Inductive Input : Type :=
| Call (caller : nat) (now : Z)
| Complete (now : Z) (reply : Reply).

Section WithMargin.

(** The safety margin before expiry (60 seconds is recommended). *)
Variable margin : Z.

(** Modelled from the spec: the invariant of AccessToken, usable without a
    network call when present and [now < expiresAt - skew]. *)
Definition usable (now : Z) (c : option AccessToken) : option string :=
  match c with
  | Some a => if now <? expiresAt a - margin then Some (token a) else None
  | None => None
  end.

(** Modelled from the spec: steps 1 to 3 of [getToken()] (section 4.1). *)
Definition getToken (caller : nat) (now : Z) (m : t) : t * list Output :=
  match usable now (cached m) with
  | Some tok => (m, [Settled caller (Resolved tok)])
  | None =>
      match pending m with
      | Some waiters =>
          ({| clientId := clientId m; clientSecret := clientSecret m;
              cached := cached m;
              pending := Some (waiters ++ [caller])%list |}, [])
      | None =>
          ({| clientId := clientId m; clientSecret := clientSecret m;
              cached := cached m;
              pending := Some [caller] |}, [TokenRequest])
      end
  end.

(** Modelled from the spec: the end of a refresh, steps 3 and 4 of
    [getToken()].  On success the new token replaces the cached one and
    every waiter resolves with it; on failure every waiter fails and the
    cached token is left untouched; the slot is cleared in both cases. *)
Definition complete (now : Z) (reply : Reply) (m : t) : t * list Output :=
  match pending m with
  | None => (m, [])
  | Some waiters =>
      match reply with
      | Granted access_token expires_in =>
          ({| clientId := clientId m; clientSecret := clientSecret m;
              cached := Some {| token := access_token;
                                expiresAt := now + expires_in |};
              pending := None |},
           map (fun c => Settled c (Resolved access_token)) waiters)
      | Refused why =>
          ({| clientId := clientId m; clientSecret := clientSecret m;
              cached := cached m;
              pending := None |},
           map (fun c => Settled c (Rejected why)) waiters)
      end
  end.

(** Modelled from the spec: one step of the manager. *)
Definition step (m : t) (i : Input) : t * list Output :=
  match i with
  | Call caller now => getToken caller now m
  | Complete now reply => complete now reply m
  end.

(** Modelled from the spec: a schedule is run step by step; the outputs
    are collected in order. *)
Fixpoint run (m : t) (schedule : list Input) : t * list Output :=
  match schedule with
  | [] => (m, [])
  | i :: rest =>
      let (m1, out1) := step m i in
      let (m2, out2) := run m1 rest in
      (m2, (out1 ++ out2)%list)
  end.

(** Modelled from the spec: a call, given by its caller and its instant,
    that finds no usable cached token (none, or one within the margin of
    its expiry or past it). *)
Definition stale (m : t) (call : nat * Z) : Prop :=
  usable (snd call) (cached m) = None.

End WithMargin.

(** Modelled from the spec: callers entering [getToken()] one after the
    other, before anything completes. *)
Definition calls_of (calls : list (nat * Z)) : list Input :=
  map (fun c => Call (fst c) (snd c)) calls.

(** Modelled from the spec: the number of requests sent to the token
    endpoint. *)
Fixpoint requests (out : list Output) : nat :=
  match out with
  | [] => O
  | TokenRequest :: rest => S (requests rest)
  | Settled _ _ :: rest => requests rest
  end.

(** Modelled from the spec: the calls resolved, in order. *)
Fixpoint settlements (out : list Output) : list (nat * Result) :=
  match out with
  | [] => []
  | TokenRequest :: rest => settlements rest
  | Settled c r :: rest => (c, r) :: settlements rest
  end.

(** Modelled from the spec: the number of refreshes in flight, which the
    single PendingRefresh slot keeps at most one. *)
Definition in_flight (m : t) : nat :=
  match pending m with
  | Some _ => 1%nat
  | None => 0%nat
  end.

(** Modelled from the spec: the result that a reply of the identity
    endpoint gives to the calls that await it. *)
Definition result_of (reply : Reply) : Result :=
  match reply with
  | Granted access_token _ => Resolved access_token
  | Refused why => Rejected why
  end.

End TokenManager.

(** ** Platform built-ins used by index.ts *)

(** [String(v)], the conversion that the record initialiser of
    [URLSearchParams] applies to each property value. *)
Fixpoint ToString (v : JsValue) : string :=
  match v with
  | JsUndefined => "undefined"
  | JsNull => "null"
  | JsBool true => "true"
  | JsBool false => "false"
  | JsNumber n => Number_toString n
  | JsString s => s
  | JsArray items =>
      (* Array.prototype.join(','): undefined and null elements are empty *)
      (fix join (l : list JsValue) : string :=
         match l with
         | [] => ""
         | x :: rest =>
             let element :=
               match x with
               | JsUndefined | JsNull => ""
               | _ => ToString x
               end in
             match rest with
             | [] => element
             | _ :: _ => element ++ "," ++ join rest
             end
         end) items
  | JsObject _ => "[object Object]"
  end.

(** The [data?: any] argument of [makeApiRequest].  Every call in index.ts
    passes either nothing or an object literal, whose properties are listed
    in own-property order. *)
Inductive RequestData : Type :=
| Omitted
| ObjectLiteral (props : list (string * JsValue)).

Definition RequestData_value (d : RequestData) : JsValue :=
  match d with
  | Omitted => JsUndefined
  | ObjectLiteral props => JsObject props
  end.

(** [new URLSearchParams(init)]: no pair for [undefined], one pair per own
    property for a record, the value converted to a string. *)
Definition URLSearchParams_new (init : RequestData) : list (string * string) :=
  match init with
  | Omitted => []
  | ObjectLiteral props => map (fun p => (fst p, ToString (snd p))) props
  end.

Definition hex_digit (n : N) : ascii :=
  ascii_of_N (if (n <? 10)%N then 48 + n else 55 + n)%N.

(** [%HH], two upper-case hexadecimal digits. *)
Definition percent_encode_byte (c : ascii) : string :=
  let n := N_of_ascii c in
  String "%" (String (hex_digit (n / 16)) (String (hex_digit (n mod 16)) "")).

Definition in_range (lo hi : N) (c : ascii) : bool :=
  ((lo <=? N_of_ascii c) && (N_of_ascii c <=? hi))%N.

(** The bytes that the application/x-www-form-urlencoded serializer leaves
    as they are: ASCII letters and digits and [*-._]. *)
Definition urlencoded_safe (c : ascii) : bool :=
  in_range 48 57 c || in_range 65 90 c || in_range 97 122 c
  || Ascii.eqb c "*" || Ascii.eqb c "-" || Ascii.eqb c "." || Ascii.eqb c "_".

(** The application/x-www-form-urlencoded byte serializer: a space becomes
    [+], a safe byte is kept, any other byte is percent-encoded. *)
Fixpoint urlencoded_byte_serialize (s : string) : string :=
  match s with
  | EmptyString => ""
  | String c rest =>
      (if Ascii.eqb c " " then "+"
       else if urlencoded_safe c then String c ""
       else percent_encode_byte c)
      ++ urlencoded_byte_serialize rest
  end.

(** [params.toString()]: the pairs as [name=value], joined by [&]. *)
Definition URLSearchParams_toString (params : list (string * string)) : string :=
  String.concat "&"
    (map (fun p => urlencoded_byte_serialize (fst p) ++ "="
                   ++ urlencoded_byte_serialize (snd p)) params).



(** [headers[name] = value] on a record of strings. *)
Fixpoint set_header (h : list (string * string)) (name value : string)
  : list (string * string) :=
  match h with
  | [] => [(name, value)]
  | (n, v) :: rest =>
      if String.eqb n name then (name, value) :: rest
      else (n, v) :: set_header rest name value
  end.

Fixpoint get_header (h : list (string * string)) (name : string) : option string :=
  match h with
  | [] => None
  | (n, v) :: rest => if String.eqb n name then Some v else get_header rest name
  end.

(** ** index.ts: start-up, [makeApiRequest] and the tool handlers *)

Record Core : Type := {
  settings : Constants;
  tokenManager : TokenManager.t
}.

(** Module evaluation up to the construction of the token manager:
    constants.ts is evaluated first (it is imported), then the credential
    check runs. *)
Definition startup : IO Core :=
  c <- constants ;;
  if negb (truthy (MARKETO_CLIENT_ID c)) || negb (truthy (MARKETO_CLIENT_SECRET c)) then
    throw (Error
      "MARKETO_CLIENT_ID and MARKETO_CLIENT_SECRET environment variables are required")
  else
    ret {| settings := c;
           tokenManager :=
             TokenManager.new (MARKETO_CLIENT_ID c) (MARKETO_CLIENT_SECRET c) |}.

(** The configuration with which the core refuses to start: the base URL
    is absent, does not parse, or is not HTTPS, or a credential is empty. *)
Definition misconfigured (w : World) : Prop :=
  configured w "MARKETO_BASE_URL" = ""
  \/ URL_new w (configured w "MARKETO_BASE_URL") = None
  \/ (exists u, URL_new w (configured w "MARKETO_BASE_URL") = Some u
                /\ protocol u <> "https:")
  \/ configured w "MARKETO_CLIENT_ID" = ""
  \/ configured w "MARKETO_CLIENT_SECRET" = "".

(** A valid HTTPS base URL and a non-empty credential pair. *)
Definition well_configured (w : World) : Prop :=
  configured w "MARKETO_BASE_URL" <> ""
  /\ https_url w (configured w "MARKETO_BASE_URL")
  /\ configured w "MARKETO_CLIENT_ID" <> ""
  /\ configured w "MARKETO_CLIENT_SECRET" <> "".

(** [await tokenManager.getToken()], settled by the world. *)
Definition tokenManager_getToken : IO string :=
  fun w => ([GetToken], getToken_settles w).

(** [await axios(request)], settled by the world. *)
Definition axios (request : AxiosRequestConfig) : IO AxiosResponse :=
  fun w => ([HttpCall request], axios_settles w request).

(** [`${error.code || error.message}`]. *)
Definition code_or_message (error : JsError) : string :=
  let text := match message error with Some m => m | None => "undefined" end in
  match code error with
  | Some c => if truthy c then c else text
  | None => text
  end.

Section Requests.

Variable core : Core.

Definition makeApiRequest (endpoint method : string) (data : RequestData)
  (contentType : option string) : IO JsValue :=
  let contentType :=
    match contentType with Some c => c | None => "application/json" end in
  token <- tokenManager_getToken ;;
  let headers := [("Authorization", "Bearer " ++ token)] in
  let headers :=
    if truthy contentType then set_header headers "Content-Type" contentType
    else headers in
  try_catch
    (response <- axios
       {| url := MARKETO_BASE_URL (settings core) ++ endpoint;
          method := method;
          data :=
            if String.eqb contentType "application/x-www-form-urlencoded"
            then JsString (URLSearchParams_toString (URLSearchParams_new data))
            else RequestData_value data;
          headers := headers;
          timeout := API_REQUEST_TIMEOUT |} ;;
     ret (body response))
    (fun error =>
       emit (ConsoleError
         ("API request failed: " ++ method ++ " " ++ endpoint ++ " - "
          ++ code_or_message error)) ;;;
       throw error).

(** The text block that a tool returns: the pretty-printed payload,
    [JSON.stringify(response, null, 2)], or a one-line error. *)
Inductive ToolText : Type :=
| Pretty (payload : JsValue)
| ErrorLine (text : string).

(** The body shared by every tool handler around its [makeApiRequest]
    call. *)
Definition tool (endpoint method : string) (data : RequestData)
  (contentType : option string) : IO ToolText :=
  try_catch
    (response <- makeApiRequest endpoint method data contentType ;;
     ret (Pretty response))
    (fun error => ret (ErrorLine ("Error: " ++ sanitizeErrorMessage error))).

End Requests.

(** ** index.ts: the lead-by-email tool, and what its statement needs *)

(** Every byte of [s] satisfies [P]. *)
Fixpoint all_chars (P : ascii -> bool) (s : string) : bool :=
  match s with
  | EmptyString => true
  | String c rest => P c && all_chars P rest
  end.




(** One parameter as [toString] writes it. *)
Definition form_pair (p : string * string) : string :=
  urlencoded_byte_serialize (fst p) ++ "=" ++ urlencoded_byte_serialize (snd p).

(** The bytes that a form-encoded text is made of. *)
Definition form_alphabet (c : ascii) : bool :=
  urlencoded_safe c || Ascii.eqb c "+" || Ascii.eqb c "%".

(** The value of an upper-case hexadecimal digit. *)
Definition hex_value (c : ascii) : N :=
  if in_range 48 57 c then (N_of_ascii c - 48)%N else (N_of_ascii c - 55)%N.

(** The inverse of [urlencoded_byte_serialize], as the receiving side
    applies it: [+] is a space and [%HH] is the byte [HH]. *)
Fixpoint percent_decode (s : string) : string :=
  match s with
  | EmptyString => ""
  | String c rest =>
      if Ascii.eqb c "+" then String " " (percent_decode rest)
      else if Ascii.eqb c "%" then
        match rest with
        | String h (String l rest') =>
            String (ascii_of_N (16 * hex_value h + hex_value l)) (percent_decode rest')
        | _ => String c (percent_decode rest)
        end
      else String c (percent_decode rest)
  end.

(** The same error with another code and another message. *)
Definition with_code_and_message (c m : option string) (error : JsError) : JsError :=
  {| response := response error;
     code := c;
     message := m;
     config := config error |}.

(** The same error with no response. *)
Definition without_response (error : JsError) : JsError :=
  {| response := None;
     code := code error;
     message := message error;
     config := config error |}.

(** The texts that [sanitizeErrorMessage] can return besides the one that
    quotes the status line. *)
Definition fixed_texts : list string :=
  [generic_message AuthFailed; generic_message Forbidden;
   generic_message NotFound; generic_message RateLimited;
   generic_message UpstreamUnavailable; generic_message NetworkUnreachable;
   generic_message Timeout;
   "An error occurred while processing your request."].

(** ** Sample inputs *)

Definition no_error : JsError :=
  {| response := None; code := None; message := None; config := None |}.

(** A request as [makeApiRequest] sends it, carrying the bearer token. *)
Definition sample_request : AxiosRequestConfig :=
  {| url := "https://123-ABC-456.mktorest.com/rest/v1/leads.json";
     method := "POST";
     data := JsUndefined;
     headers := [("Authorization", "Bearer T1"); ("Content-Type", "application/json")];
     timeout := API_REQUEST_TIMEOUT |}.

(** The error that axios raises for a response with the given status line
    and body. *)
Definition status_error (s : Z) (reason : string) (b : JsValue) : JsError :=
  {| response := Some {| status := s; statusText := Some reason; body := b |};
     code := Some (if s <? 500 then "ERR_BAD_REQUEST" else "ERR_BAD_RESPONSE");
     message := Some ("Request failed with status code " ++ Number_toString s);
     config := Some sample_request |}.

Definition marketo_error_body : JsValue :=
  JsObject [("success", JsBool false);
            ("errors", JsArray [JsObject [("code", JsString "601");
                                          ("message", JsString "Access token invalid")]])].

(** The error of a name lookup that fails for a host whose name contains
    the text [timeout]. *)
Definition dns_failure : JsError :=
  {| response := None;
     code := Some "ENOTFOUND";
     message := Some "getaddrinfo ENOTFOUND timeout-lab.mktorest.com";
     config := Some sample_request |}.

(** The error that axios raises when the 30 second timeout passes. *)
Definition axios_timeout : JsError :=
  {| response := None;
     code := Some "ECONNABORTED";
     message := Some "timeout of 30000ms exceeded";
     config := Some sample_request |}.

Definition gateway_timeout : JsError :=
  status_error 504 "Gateway Timeout" (JsString "upstream timed out").

Definition teapot : JsError :=
  status_error 418 "I'm a teapot" (JsString "short and stout").

(** A stand-in for the platform's URL parser, enough for the examples: it
    accepts [http://host...] and [https://host...] and reads the host up
    to the first ['/']. *)
Fixpoint up_to_slash (s : string) : string :=
  match s with
  | EmptyString => ""
  | String c rest => if Ascii.eqb c "/" then "" else String c (up_to_slash rest)
  end.

Definition sample_URL_new (s : string) : option URL :=
  if prefix "https://" s then
    Some {| protocol := "https:";
            hostname := up_to_slash (substring 8 (String.length s) s) |}
  else if prefix "http://" s then
    Some {| protocol := "http:";
            hostname := up_to_slash (substring 7 (String.length s) s) |}
  else None.

Definition sample_env (name : string) : option string :=
  if String.eqb name "MARKETO_BASE_URL" then Some "https://123-ABC-456.mktorest.com//"
  else if String.eqb name "MARKETO_CLIENT_ID" then Some "client-id"
  else if String.eqb name "MARKETO_CLIENT_SECRET" then Some "client-secret"
  else None.

Definition leads_payload : JsValue :=
  JsObject [("requestId", JsString "e42b#14272d07d78");
            ("success", JsBool true);
            ("result", JsArray [JsObject [("id", JsNumber 318581);
                                          ("email", JsString "kjashaedd-1@klooblept.com")]])].

(** A world in which the token manager resolves with [T1] and the
    platform answers 200 with a payload. *)
Definition sample_world : World :=
  {| process_env := sample_env;
     URL_new := sample_URL_new;
     getToken_settles := inr "T1";
     axios_settles := fun _ =>
       inr {| status := 200; statusText := Some "OK"; body := leads_payload |} |}.

(** The same world, except that the platform answers 401. *)
Definition unauthorized_world : World :=
  {| process_env := sample_env;
     URL_new := sample_URL_new;
     getToken_settles := inr "T1";
     axios_settles := fun _ =>
       inl (status_error 401 "Unauthorized" marketo_error_body) |}.

(** A world whose base URL is not HTTPS, and one with no client secret. *)
Definition insecure_world : World :=
  {| process_env := fun name =>
       if String.eqb name "MARKETO_BASE_URL" then Some "http://123-ABC-456.mktorest.com"
       else sample_env name;
     URL_new := sample_URL_new;
     getToken_settles := inr "T1";
     axios_settles := axios_settles sample_world |}.

Definition secretless_world : World :=
  {| process_env := fun name =>
       if String.eqb name "MARKETO_CLIENT_SECRET" then None else sample_env name;
     URL_new := sample_URL_new;
     getToken_settles := inr "T1";
     axios_settles := axios_settles sample_world |}.

Definition sample_core : Core :=
  {| settings :=
       {| MARKETO_BASE_URL := "https://123-ABC-456.mktorest.com";
          MARKETO_CLIENT_ID := "client-id";
          MARKETO_CLIENT_SECRET := "client-secret" |};
     tokenManager := TokenManager.new "client-id" "client-secret" |}.

(** The data of the clone-form tool, [{ name, description, folder }] with
    no description given and the folder as JSON text. *)
Definition double_quote : string := String (ascii_of_nat 34) "".

Definition clone_form_data : list (string * JsValue) :=
  [("name", JsString "Q3 Launch & Follow-up");
   ("description", JsUndefined);
   ("folder", JsString ("{" ++ double_quote ++ "id" ++ double_quote ++ ":12,"
                        ++ double_quote ++ "type" ++ double_quote ++ ":"
                        ++ double_quote ++ "Folder" ++ double_quote ++ "}"))].

Definition clone_form_request : AxiosRequestConfig :=
  {| url := "https://123-ABC-456.mktorest.com/asset/v1/form/7/clone.json";
     method := "POST";
     data := JsString
       ("name=Q3+Launch+%26+Follow-up&description=undefined"
        ++ "&folder=%7B%22id%22%3A12%2C%22type%22%3A%22Folder%22%7D");
     headers := [("Authorization", "Bearer T1");
                 ("Content-Type", "application/x-www-form-urlencoded")];
     timeout := API_REQUEST_TIMEOUT |}.

(** A manager holding the token [T1], valid until instant 3600. *)
Definition manager_with_T1 : TokenManager.t :=
  {| TokenManager.clientId := "client-id";
     TokenManager.clientSecret := "client-secret";
     TokenManager.cached :=
       Some {| TokenManager.token := "T1"; TokenManager.expiresAt := 3600 |};
     TokenManager.pending := None |}.

(** A world in which the token manager rejects. *)
Definition tokenless_world : World :=
  {| process_env := sample_env;
     URL_new := sample_URL_new;
     getToken_settles := inl (status_error 401 "Unauthorized" marketo_error_body);
     axios_settles := axios_settles sample_world |}.

(** A world whose base URL is not a Marketo host. *)
Definition foreign_world : World :=
  {| process_env := fun name =>
       if String.eqb name "MARKETO_BASE_URL" then Some "https://proxy.example.org/"
       else sample_env name;
     URL_new := sample_URL_new;
     getToken_settles := inr "T1";
     axios_settles := axios_settles sample_world |}.

(** A world with neither a usable base URL nor credentials. *)
Definition empty_world : World :=
  {| process_env := fun name =>
       if String.eqb name "MARKETO_BASE_URL" then Some "ftp//nowhere" else None;
     URL_new := sample_URL_new;
     getToken_settles := inr "T1";
     axios_settles := axios_settles sample_world |}.


(** The data of the add-lead-to-list tool for two leads, and the request
    that carries it. *)
Definition lead_list_data : list (string * JsValue) :=
  [("input", JsArray [JsObject [("id", JsNumber 318581)];
                      JsObject [("id", JsNumber 318582)]])].

Definition lead_list_request : AxiosRequestConfig :=
  {| url := "https://123-ABC-456.mktorest.com/rest/v1/lists/1001/leads.json";
     method := "POST";
     data := JsObject lead_list_data;
     headers := [("Authorization", "Bearer T1");
                 ("Content-Type", "application/json")];
     timeout := API_REQUEST_TIMEOUT |}.

(** * Properties *)

(** ** Strings *)

Lemma prefix_append (n b : string) : prefix n (n ++ b) = true.
Proof.
  induction n as [|c n IH]; simpl.
  - destruct b; reflexivity.
  - destruct (ascii_dec c c) as [_|ne]; [exact IH | contradiction].
Qed.

Lemma includes_at_head (hay n : string) :
  prefix n hay = true -> includes hay n = true.
Proof.
  intros H. destruct hay; cbn [includes]; rewrite H; reflexivity.
Qed.

Lemma includes_inside (a n b : string) : includes (a ++ n ++ b) n = true.
Proof.
  induction a as [|c a IH]; simpl.
  - apply includes_at_head, prefix_append.
  - rewrite IH. apply orb_true_r.
Qed.

(** ** [sanitizeErrorMessage] *)

Lemma response_status_with (b : JsValue) (c : option AxiosRequestConfig)
  (error : JsError) :
  response_status (with_body b (with_config c error))
  = match response_status error with
    | Some (s, r) =>
        Some (s, {| status := status r; statusText := statusText r; body := b |})
    | None => None
    end.
Proof.
  unfold response_status, with_body, with_config; simpl.
  destruct (response error) as [r|]; simpl; [|reflexivity].
  destruct (status r =? 0); reflexivity.
Qed.

(** The sanitized text is a function of the status line, the error code and
    the error message: neither the response body nor the request
    configuration (where the bearer token is) takes part in it. *)
Lemma sanitize_ignores_body_and_token (b : JsValue)
  (c : option AxiosRequestConfig) (error : JsError) :
  sanitizeErrorMessage (with_body b (with_config c error))
  = sanitizeErrorMessage error.
Proof.
  unfold sanitizeErrorMessage.
  rewrite response_status_with.
  destruct (response_status error) as [[s r]|]; reflexivity.
Qed.

Lemma sanitize_by_status (error : JsError) (s : Z) (r : AxiosResponse) :
  response_status error = Some (s, r) ->
  sanitizeErrorMessage error
  = match kind_of_status s with
    | Some k => generic_message k
    | None =>
        "Request failed with status " ++ Number_toString s ++ ": "
        ++ or_else (statusText r) "Unknown error"
    end.
Proof.
  intros H. unfold sanitizeErrorMessage, kind_of_status. rewrite H.
  destruct (s =? 401); [reflexivity|].
  destruct (s =? 403); [reflexivity|].
  destruct (s =? 404); [reflexivity|].
  destruct (s =? 429); [reflexivity|].
  destruct ((s =? 500) || (s =? 502) || (s =? 503)); reflexivity.
Qed.

Lemma response_status_some (error : JsError) (r : AxiosResponse) :
  response error = Some r -> status r <> 0 ->
  response_status error = Some (status r, r).
Proof.
  intros H Hs. unfold response_status. rewrite H.
  destruct (Z.eqb_spec (status r) 0); [contradiction | reflexivity].
Qed.

(** C1, as amended.  The triggers are tested in order: for an error whose
    response status is one of 401, 403, 404, 429, 500, 502, 503; for an
    error with no response status whose code is ECONNREFUSED or ENOTFOUND;
    and for an error with no response status and neither of these codes
    whose code is ECONNABORTED or whose message contains 'timeout', the
    sanitized text is the fixed generic message of the corresponding kind,
    and it stays that message whatever response body and whatever request
    configuration (bearer token) the error carries. *)
Theorem sanitize_matches_taxonomy (error : JsError) (k : ErrorKind) :
  triggers error k ->
  forall (b : JsValue) (c : option AxiosRequestConfig),
    sanitizeErrorMessage error = generic_message k /\
    sanitizeErrorMessage (with_body b (with_config c error)) = generic_message k.
Proof.
  intros T b c. rewrite sanitize_ignores_body_and_token.
  assert (G : sanitizeErrorMessage error = generic_message k).
  { destruct T as [s r k Hs Hk | Hn Hr | Hn Hr Ht].
    - rewrite (sanitize_by_status _ _ _ Hs), Hk. reflexivity.
    - unfold sanitizeErrorMessage. rewrite Hn.
      unfold connection_refused in Hr. rewrite Hr. reflexivity.
    - unfold sanitizeErrorMessage. rewrite Hn.
      unfold connection_refused in Hr. unfold timed_out in Ht.
      rewrite Hr, Ht. reflexivity. }
  split; exact G.
Qed.

Lemma sanitize_matches_taxonomy_timeout :
  sanitizeErrorMessage axios_timeout = "Request timed out. Please try again." /\
  sanitizeErrorMessage
    (with_body marketo_error_body (with_config None axios_timeout))
  = "Request timed out. Please try again.".
Proof.
  apply (sanitize_matches_taxonomy axios_timeout Timeout).
  apply by_timeout; reflexivity.
Defined.

(** C1, as stated, fails: a failed name lookup for a host whose name
    contains 'timeout' meets the timeout trigger as it is stated (a message
    containing 'timeout'), and its sanitized text is not the timeout
    message, because the ENOTFOUND test comes first. *)
Lemma timeout_text_in_dns_failure :
  timed_out dns_failure = true /\
  sanitizeErrorMessage dns_failure = generic_message NetworkUnreachable /\
  sanitizeErrorMessage dns_failure <> generic_message Timeout.
Proof.
  split; [reflexivity | split; [reflexivity | discriminate]].
Qed.

(** C3, as amended.  For every error carrying an HTTP status 500, 502 or
    503, the sanitized text is the generic message of UpstreamUnavailable
    (service unavailable, retry later). *)
Theorem sanitize_upstream_unavailable (error : JsError) (r : AxiosResponse) :
  response error = Some r ->
  status r = 500 \/ status r = 502 \/ status r = 503 ->
  sanitizeErrorMessage error = generic_message UpstreamUnavailable.
Proof.
  intros H Hs.
  rewrite (sanitize_by_status error (status r) r).
  - destruct Hs as [E|[E|E]]; rewrite E; reflexivity.
  - apply response_status_some; [exact H | lia].
Qed.

Lemma sanitize_upstream_unavailable_503 :
  sanitizeErrorMessage (status_error 503 "Service Unavailable" marketo_error_body)
  = "Marketo service temporarily unavailable. Please try again later.".
Proof.
  eapply (sanitize_upstream_unavailable
            (status_error 503 "Service Unavailable" marketo_error_body)).
  - reflexivity.
  - simpl. lia.
Defined.

(** C3, as stated, fails at status 504: it lies in 500..599 and the
    sanitized text is the default text with the status line, not the
    service-unavailable message. *)
Lemma gateway_timeout_not_unavailable :
  exists r, response gateway_timeout = Some r /\
            500 <= status r <= 599 /\
            sanitizeErrorMessage gateway_timeout
            = "Request failed with status 504: Gateway Timeout" /\
            sanitizeErrorMessage gateway_timeout
            <> generic_message UpstreamUnavailable.
Proof.
  eexists. split; [reflexivity|]. simpl.
  split; [lia|]. split; [reflexivity | discriminate].
Qed.




(** ** constants.ts: [validateMarketoUrl] *)

Lemma only_slashes_is_run (s : string) :
  only_slashes s = true -> s = slashes (String.length s).
Proof.
  induction s as [|c s IH]; simpl; intros H.
  - reflexivity.
  - apply andb_true_iff in H. destruct H as [Hc Hs].
    apply Ascii.eqb_eq in Hc. subst c. f_equal. exact (IH Hs).
Qed.

Lemma slashes_to_end_only (s : string) :
  slashes_to_end s = true -> only_slashes s = true.
Proof.
  destruct s; simpl; [discriminate | trivial].
Qed.

(** What [replace] removes is a run of slashes at the end. *)
Lemma replace_trailing_slashes_cuts_a_run (s : string) :
  exists n, s = replace_trailing_slashes s ++ slashes n.
Proof.
  induction s as [|c s [n IH]].
  - exists O. reflexivity.
  - cbn [replace_trailing_slashes].
    destruct (slashes_to_end (String c s)) eqn:E.
    + exists (String.length (String c s)).
      apply only_slashes_is_run, slashes_to_end_only, E.
    + exists n. simpl. f_equal. exact IH.
Qed.

Lemma replace_trailing_slashes_empty (s : string) :
  replace_trailing_slashes s = "" -> only_slashes s = true.
Proof.
  destruct s as [|c s]; [reflexivity|].
  cbn [replace_trailing_slashes].
  destruct (slashes_to_end (String c s)) eqn:E.
  - intros _. apply slashes_to_end_only, E.
  - discriminate.
Qed.

(** What [replace] returns does not end with a slash. *)
Lemma replace_trailing_slashes_tail (s : string) :
  endsWith (replace_trailing_slashes s) "/" = false.
Proof.
  induction s as [|c s IH].
  - reflexivity.
  - cbn [replace_trailing_slashes].
    destruct (slashes_to_end (String c s)) eqn:E; [reflexivity|].
    cbn [endsWith]. rewrite IH, orb_false_r.
    destruct (String.eqb_spec (String c (replace_trailing_slashes s)) "/") as [Q|]; [|reflexivity].
    injection Q as Qc Qs.
    apply replace_trailing_slashes_empty in Qs.
    simpl in E. rewrite Qc, Qs in E. discriminate.
Qed.

Lemma truthy_false (s : string) : truthy s = false <-> s = "".
Proof.
  unfold truthy. destruct (String.eqb_spec s ""); simpl; split; congruence.
Qed.

Lemma truthy_true (s : string) : truthy s = true <-> s <> "".
Proof.
  unfold truthy. destruct (String.eqb_spec s ""); simpl; split; congruence.
Qed.

(** The outcome of [validateMarketoUrl], test by test. *)
Lemma validateMarketoUrl_outcome (w : World) (url : string) :
  outcome (validateMarketoUrl url w)
  = if truthy url then
      match URL_new w url with
      | None => inl (Error ("MARKETO_BASE_URL is not a valid URL: " ++ url))
      | Some u =>
          if String.eqb (protocol u) "https:"
          then inr (replace_trailing_slashes url)
          else inl (Error "MARKETO_BASE_URL must use HTTPS protocol for security")
      end
    else inl (Error "MARKETO_BASE_URL environment variable is required").
Proof.
  unfold validateMarketoUrl, outcome.
  destruct (truthy url); [|reflexivity].
  cbv [bind ask negb].
  destruct (URL_new w url) as [u|]; [|reflexivity].
  destruct (String.eqb (protocol u) "https:"); [|reflexivity].
  destruct (includes (hostname u) "mktorest.com");
    destruct (includes (hostname u) "marketo.com"); reflexivity.
Qed.

(** C10.  For every input that [validateMarketoUrl] accepts, that is every
    non-empty string that parses as a URL whose protocol is https:, it
    returns the input with its trailing slashes removed and nothing else
    changed: the input is the result followed by a run of slashes, and the
    result does not end with a slash. *)
Theorem validateMarketoUrl_strips_trailing_slashes (w : World) (url : string) :
  url <> "" ->
  https_url w url ->
  exists result,
    outcome (validateMarketoUrl url w) = inr result /\
    result = replace_trailing_slashes url /\
    (exists n, url = result ++ slashes n) /\
    endsWith result "/" = false.
Proof.
  intros Hne [u [P S]].
  exists (replace_trailing_slashes url).
  rewrite validateMarketoUrl_outcome, P.
  apply truthy_true in Hne. rewrite Hne.
  apply String.eqb_eq in S. rewrite S.
  split; [reflexivity|]. split; [reflexivity|]. split.
  - apply replace_trailing_slashes_cuts_a_run.
  - apply replace_trailing_slashes_tail.
Qed.

Lemma validateMarketoUrl_strips_trailing_slashes_sample :
  exists result,
    outcome (validateMarketoUrl "https://123-ABC-456.mktorest.com//" sample_world)
    = inr result /\
    result = "https://123-ABC-456.mktorest.com" /\
    (exists n, "https://123-ABC-456.mktorest.com//" = result ++ slashes n) /\
    endsWith result "/" = false.
Proof.
  apply (validateMarketoUrl_strips_trailing_slashes sample_world
           "https://123-ABC-456.mktorest.com//").
  - discriminate.
  - eexists. split; reflexivity.
Defined.

(** ** index.ts: start-up *)

Lemma startup_outcome (w : World) :
  outcome (startup w)
  = match outcome (validateMarketoUrl (configured w "MARKETO_BASE_URL") w) with
    | inl e => inl e
    | inr baseUrl =>
        if truthy (configured w "MARKETO_CLIENT_ID")
           && truthy (configured w "MARKETO_CLIENT_SECRET")
        then inr {| settings :=
                      {| MARKETO_BASE_URL := baseUrl;
                         MARKETO_CLIENT_ID := configured w "MARKETO_CLIENT_ID";
                         MARKETO_CLIENT_SECRET := configured w "MARKETO_CLIENT_SECRET" |};
                    tokenManager :=
                      TokenManager.new (configured w "MARKETO_CLIENT_ID")
                                       (configured w "MARKETO_CLIENT_SECRET") |}
        else inl (Error
          "MARKETO_CLIENT_ID and MARKETO_CLIENT_SECRET environment variables are required")
    end.
Proof.
  unfold startup, constants, env_or_empty, outcome.
  cbv [bind ask ret throw].
  destruct (validateMarketoUrl (configured w "MARKETO_BASE_URL") w) as [t [e|b]];
    [reflexivity|].
  cbn [snd MARKETO_CLIENT_ID MARKETO_CLIENT_SECRET].
  destruct (truthy (configured w "MARKETO_CLIENT_ID"));
    destruct (truthy (configured w "MARKETO_CLIENT_SECRET")); reflexivity.
Qed.

(** C6.  Start-up throws exactly when the configuration is wrong (the base
    URL is absent, does not parse as a URL or is not HTTPS, or the client
    id or the client secret is empty), and it constructs the core exactly
    when the base URL is a valid HTTPS URL and both credentials are
    non-empty. *)
Theorem startup_fails_fast (w : World) :
  ((exists e, outcome (startup w) = inl e) <-> misconfigured w) /\
  ((exists core, outcome (startup w) = inr core) <-> well_configured w).
Proof.
  rewrite startup_outcome, validateMarketoUrl_outcome.
  unfold misconfigured, well_configured, https_url.
  set (base := configured w "MARKETO_BASE_URL").
  set (id := configured w "MARKETO_CLIENT_ID").
  set (secret := configured w "MARKETO_CLIENT_SECRET").
  destruct (truthy base) eqn:Tb.
  2:{ apply truthy_false in Tb. split; split.
      - intros _. left. exact Tb.
      - intros _. eexists. reflexivity.
      - intros [c Hc]. discriminate.
      - intros [Hb _]. contradiction. }
  apply truthy_true in Tb.
  destruct (URL_new w base) as [u|] eqn:P.
  2:{ split; split.
      - intros _. right. left. reflexivity.
      - intros _. eexists. reflexivity.
      - intros [c Hc]. discriminate.
      - intros [_ [[u [Hu _]] _]]. discriminate. }
  destruct (String.eqb_spec (protocol u) "https:") as [S|S].
  2:{ split; split.
      - intros _. right. right. left. exists u. split; [reflexivity | exact S].
      - intros _. eexists. reflexivity.
      - intros [c Hc]. discriminate.
      - intros [_ [[u' [Hu Hp]] _]]. injection Hu as Hu. subst u'. contradiction. }
  destruct (truthy id) eqn:Ti.
  2:{ apply truthy_false in Ti. split; split.
      - intros _. do 3 right. left. exact Ti.
      - intros _. eexists. reflexivity.
      - intros [c Hc]. discriminate.
      - intros [_ [_ [Hi _]]]. contradiction. }
  apply truthy_true in Ti.
  destruct (truthy secret) eqn:Ts.
  2:{ apply truthy_false in Ts. split; split.
      - intros _. do 4 right. exact Ts.
      - intros _. eexists. reflexivity.
      - intros [c Hc]. discriminate.
      - intros [_ [_ [_ Hs]]]. contradiction. }
  apply truthy_true in Ts. cbn [andb].
  split; split.
  - intros [e He]. discriminate.
  - intros [H|[H|[[u' [Hu Hp]]|[H|H]]]]; try contradiction; try discriminate.
    injection Hu as Hu. subst u'. contradiction.
  - intros _. repeat split; try assumption. exists u. split; [reflexivity | exact S].
  - intros _. eexists. reflexivity.
Qed.

Lemma startup_sample :
  exists core, outcome (startup sample_world) = inr core.
Proof.
  apply (proj2 (startup_fails_fast sample_world)).
  unfold well_configured, https_url. repeat split; try discriminate.
  eexists. split; reflexivity.
Defined.

Example startup_refuses_http :
  outcome (startup insecure_world)
  = inl (Error "MARKETO_BASE_URL must use HTTPS protocol for security").
Proof. reflexivity. Qed.

Example startup_refuses_missing_secret :
  outcome (startup secretless_world)
  = inl (Error
      "MARKETO_CLIENT_ID and MARKETO_CLIENT_SECRET environment variables are required").
Proof. reflexivity. Qed.

(** ** index.ts: [makeApiRequest] *)

(** The runs of [makeApiRequest]: the token manager is asked once; if it
    fails nothing else happens; otherwise one request is handed to axios,
    and the run ends with its payload, or with a log line and its error. *)
Lemma makeApiRequest_runs (w : World) (core : Core) (endpoint method : string)
  (d : RequestData) (ct : option string) :
  let contentType :=
    match ct with Some c => c | None => "application/json" end in
  let run := makeApiRequest core endpoint method d ct w in
  (exists e, getToken_settles w = inl e /\ run = ([GetToken], inl e))
  \/
  (exists token q,
      getToken_settles w = inr token
      /\ url q = MARKETO_BASE_URL (settings core) ++ endpoint
      /\ data q = (if String.eqb contentType "application/x-www-form-urlencoded"
                   then JsString (URLSearchParams_toString (URLSearchParams_new d))
                   else RequestData_value d)
      /\ headers q = (if truthy contentType
                      then set_header [("Authorization", "Bearer " ++ token)]
                                      "Content-Type" contentType
                      else [("Authorization", "Bearer " ++ token)])
      /\ ((exists resp, axios_settles w q = inr resp
                        /\ run = ([GetToken; HttpCall q], inr (body resp)))
          \/ (exists e line, axios_settles w q = inl e
                             /\ run = ([GetToken; HttpCall q; ConsoleError line], inl e)))).
Proof.
  intros contentType run. subst run.
  unfold makeApiRequest, tokenManager_getToken, axios.
  fold contentType.
  cbv [bind try_catch emit throw ret].
  destruct (getToken_settles w) as [e|token]; [left; eauto|].
  right.
  match goal with |- context [axios_settles w ?q] =>
    exists token, q; destruct (axios_settles w q) as [e|resp] eqn:A end.
  - repeat (split; [reflexivity|]).
    right. eexists e, _. split; reflexivity.
  - repeat (split; [reflexivity|]).
    left. exists resp. split; reflexivity.
Qed.

Lemma tool_after_makeApiRequest (w : World) (core : Core)
  (endpoint method : string) (d : RequestData) (ct : option string) :
  tool core endpoint method d ct w
  = match makeApiRequest core endpoint method d ct w with
    | (t, inr payload) => (t, inr (Pretty payload))
    | (t, inl e) => (t, inr (ErrorLine ("Error: " ++ sanitizeErrorMessage e)))
    end.
Proof.
  unfold tool. cbv [try_catch bind ret].
  destruct (makeApiRequest core endpoint method d ct w) as [t [e|v]].
  - rewrite app_nil_r. reflexivity.
  - rewrite app_nil_r. reflexivity.
Qed.

Ltac the_call H :=
  cbn [trace fst In] in H;
  repeat match type of H with
         | _ \/ _ => destruct H as [H|H]
         | False => contradiction
         | GetToken = HttpCall _ => discriminate H
         | ConsoleError _ = HttpCall _ => discriminate H
         | HttpCall _ = HttpCall _ => injection H as H
         end.

(** C4.  When the HTTP call that [makeApiRequest] performs succeeds, the
    value returned to the calling handler is the decoded body of that
    response, itself: nothing is added, removed or reinterpreted (and the
    handler pretty-prints that very value). *)
Theorem makeApiRequest_returns_payload (w : World) (core : Core)
  (endpoint method : string) (d : RequestData) (ct : option string)
  (q : AxiosRequestConfig) (resp : AxiosResponse) :
  In (HttpCall q) (trace (makeApiRequest core endpoint method d ct w)) ->
  axios_settles w q = inr resp ->
  outcome (makeApiRequest core endpoint method d ct w) = inr (body resp) /\
  outcome (tool core endpoint method d ct w) = inr (Pretty (body resp)).
Proof.
  intros Hq Hok. rewrite tool_after_makeApiRequest.
  destruct (makeApiRequest_runs w core endpoint method d ct)
    as [[e [_ R]] | [token [q0 [_ [_ [_ [_ [[r [A R]] | [e [line [A R]]]]]]]]]]];
    rewrite R in *; the_call Hq; subst q0.
  - rewrite Hok in A. injection A as A. subst r. split; reflexivity.
  - rewrite Hok in A. discriminate.
Qed.

Lemma makeApiRequest_returns_payload_sample :
  outcome (makeApiRequest sample_core "/rest/v1/leads.json" "GET" Omitted None
             sample_world) = inr leads_payload /\
  outcome (tool sample_core "/rest/v1/leads.json" "GET" Omitted None
             sample_world) = inr (Pretty leads_payload).
Proof.
  apply (makeApiRequest_returns_payload sample_world sample_core
           "/rest/v1/leads.json" "GET" Omitted None
           {| url := "https://123-ABC-456.mktorest.com/rest/v1/leads.json";
              method := "GET";
              data := JsUndefined;
              headers := [("Authorization", "Bearer T1");
                          ("Content-Type", "application/json")];
              timeout := API_REQUEST_TIMEOUT |}
           {| status := 200; statusText := Some "OK"; body := leads_payload |}).
  - simpl. right. left. reflexivity.
  - reflexivity.
Defined.

(** C5.  When the business call fails with HTTP 401, the run of
    [makeApiRequest] is: the token manager asked once, that one HTTP call,
    one log line.  No second HTTP call is made and the token manager is not
    asked again; the error is rethrown, and the handler turns it into the
    authentication-failure text without any further event. *)
Theorem makeApiRequest_401_is_final (w : World) (core : Core)
  (endpoint method : string) (d : RequestData) (ct : option string)
  (q : AxiosRequestConfig) (e : JsError) (r : AxiosResponse) :
  In (HttpCall q) (trace (makeApiRequest core endpoint method d ct w)) ->
  axios_settles w q = inl e ->
  response e = Some r ->
  status r = 401 ->
  (exists line,
      trace (makeApiRequest core endpoint method d ct w)
      = [GetToken; HttpCall q; ConsoleError line]) /\
  http_calls (trace (makeApiRequest core endpoint method d ct w)) = [q] /\
  token_requests (trace (makeApiRequest core endpoint method d ct w)) = 1%nat /\
  outcome (makeApiRequest core endpoint method d ct w) = inl e /\
  sanitizeErrorMessage e = generic_message AuthFailed /\
  tool core endpoint method d ct w
  = (trace (makeApiRequest core endpoint method d ct w),
     inr (ErrorLine ("Error: " ++ generic_message AuthFailed))).
Proof.
  intros Hq Hfail Hr Hs.
  assert (G : sanitizeErrorMessage e = generic_message AuthFailed).
  { rewrite (sanitize_by_status e (status r) r).
    - rewrite Hs. reflexivity.
    - apply response_status_some; [exact Hr | lia]. }
  rewrite tool_after_makeApiRequest.
  destruct (makeApiRequest_runs w core endpoint method d ct)
    as [[e0 [_ R]] | [token [q0 [_ [_ [_ [_ [[r0 [A R]] | [e0 [line [A R]]]]]]]]]]];
    rewrite R in *; the_call Hq; subst q0.
  - rewrite Hfail in A. discriminate.
  - rewrite Hfail in A. injection A as A. subst e0.
    cbn [trace outcome fst snd http_calls token_requests].
    rewrite G. repeat split; try reflexivity. exists line. reflexivity.
Qed.

Lemma makeApiRequest_401_is_final_sample :
  http_calls (trace (makeApiRequest sample_core "/rest/v1/leads.json" "GET"
                       Omitted None unauthorized_world))
  = [ {| url := "https://123-ABC-456.mktorest.com/rest/v1/leads.json";
         method := "GET";
         data := JsUndefined;
         headers := [("Authorization", "Bearer T1");
                     ("Content-Type", "application/json")];
         timeout := API_REQUEST_TIMEOUT |} ] /\
  outcome (tool sample_core "/rest/v1/leads.json" "GET" Omitted None
             unauthorized_world)
  = inr (ErrorLine
           "Error: Authentication failed. Please check your Marketo credentials.").
Proof.
  destruct (makeApiRequest_401_is_final unauthorized_world sample_core
              "/rest/v1/leads.json" "GET" Omitted None
              {| url := "https://123-ABC-456.mktorest.com/rest/v1/leads.json";
                 method := "GET";
                 data := JsUndefined;
                 headers := [("Authorization", "Bearer T1");
                             ("Content-Type", "application/json")];
                 timeout := API_REQUEST_TIMEOUT |}
              (status_error 401 "Unauthorized" marketo_error_body)
              {| status := 401; statusText := Some "Unauthorized";
                 body := marketo_error_body |})
    as [_ [H1 [_ [_ [_ H5]]]]].
  - simpl. right. left. reflexivity.
  - reflexivity.
  - reflexivity.
  - reflexivity.
  - split; [exact H1 | rewrite H5; reflexivity].
Defined.

(** ** Form encoding *)


Lemma percent_not_safe (c : ascii) :
  urlencoded_safe c = true -> Ascii.eqb c "%" = false.
Proof.
  destruct (Ascii.eqb_spec c "%") as [E|]; [subst c; discriminate | reflexivity].
Qed.




(** The two requests of the samples, as they are sent. *)
Example clone_form_request_is_sent :
  http_calls (trace (makeApiRequest sample_core "/asset/v1/form/7/clone.json"
                       "POST" (ObjectLiteral clone_form_data)
                       (Some "application/x-www-form-urlencoded") sample_world))
  = [clone_form_request].
Proof. reflexivity. Qed.

Example lead_list_request_is_sent :
  http_calls (trace (makeApiRequest sample_core "/rest/v1/lists/1001/leads.json"
                       "POST" (ObjectLiteral lead_list_data) None sample_world))
  = [lead_list_request].
Proof. reflexivity. Qed.

(** ** auth.ts: [TokenManager] *)

Section TokenManagerFacts.

Import TokenManager.

Variable margin : Z.

Lemma run_app (m : t) (a b : list Input) :
  run margin m (a ++ b)%list
  = let (m1, out1) := run margin m a in
    let (m2, out2) := run margin m1 b in
    (m2, (out1 ++ out2)%list).
Proof.
  revert m. induction a as [|i a IH]; intros m; cbn [run app].
  - destruct (run margin m b); reflexivity.
  - destruct (step margin m i) as [m1 o1]. rewrite IH.
    destruct (run margin m1 a) as [m2 o2].
    destruct (run margin m2 b) as [m3 o3].
    rewrite app_assoc. reflexivity.
Qed.

Lemma requests_settled (r : Result) (ws : list nat) :
  requests (map (fun c => Settled c r) ws) = O.
Proof. induction ws; simpl; auto. Qed.

Lemma settlements_settled (r : Result) (ws : list nat) :
  settlements (map (fun c => Settled c r) ws) = map (fun c => (c, r)) ws.
Proof. induction ws as [|c ws IH]; simpl; [|rewrite IH]; reflexivity. Qed.

(** While a refresh is pending, callers that find no usable token join the
    waiters: nothing is sent and nothing is resolved. *)
Lemma calls_join_pending (calls : list (nat * Z)) :
  forall (id secret : string) (c : option AccessToken) (ws : list nat),
    Forall (fun call => usable margin (snd call) c = None) calls ->
    run margin {| clientId := id; clientSecret := secret;
                  cached := c; pending := Some ws |} (calls_of calls)
    = ({| clientId := id; clientSecret := secret; cached := c;
          pending := Some (ws ++ map fst calls)%list |}, []).
Proof.
  induction calls as [|[caller now] calls IH]; intros id secret c ws H.
  - simpl. rewrite app_nil_r. reflexivity.
  - inversion H as [|x l Hx Hl]; subst. simpl in Hx.
    cbn [calls_of map run step fst snd]. unfold getToken at 1.
    cbn [cached pending clientId clientSecret]. rewrite Hx.
    fold (calls_of calls). rewrite (IH id secret c (ws ++ [caller])%list Hl).
    rewrite <- app_assoc. reflexivity.
Qed.

Lemma complete_pending (now : Z) (reply : Reply) (m : t) (ws : list nat) :
  pending m = Some ws ->
  snd (complete now reply m) = map (fun c => Settled c (result_of reply)) ws.
Proof.
  intros H. unfold complete. rewrite H. destruct reply; reflexivity.
Qed.

(** The outputs of a burst of calls followed by the completion of the
    request: one request, then one settlement per caller. *)
Lemma overlapping_calls (m : t) (call : nat * Z) (rest : list (nat * Z))
  (now : Z) (reply : Reply) :
  pending m = None ->
  Forall (stale margin m) (call :: rest) ->
  snd (run margin m (calls_of (call :: rest) ++ [Complete now reply])%list)
  = TokenRequest
    :: map (fun c => Settled c (result_of reply)) (map fst (call :: rest)).
Proof.
  intros Hp Hs.
  inversion Hs as [|x l H0 Hrest]; subst. unfold stale in H0, Hrest.
  destruct call as [caller t0]. destruct m as [id secret c p].
  simpl in Hp, H0, Hrest. subst p.
  cbn [calls_of map app run step fst snd].
  unfold getToken at 1. cbn [cached pending clientId clientSecret].
  rewrite H0.
  fold (calls_of rest). rewrite run_app.
  rewrite (calls_join_pending rest id secret c [caller] Hrest).
  cbn [run step].
  match goal with |- context [complete now reply ?m1] =>
    pose proof (complete_pending now reply m1 _ eq_refl) as Hc;
    destruct (complete now reply m1) as [m2 o2] end.
  simpl in Hc. subst o2. simpl. rewrite app_nil_r. reflexivity.
Qed.

End TokenManagerFacts.

(** C2.  Single flight: when two or more callers enter [getToken()] while
    no refresh is pending and the cached token is usable for none of them,
    and the request then completes, exactly one request has been sent to
    the token endpoint, and every caller is resolved with the result of
    that one request: the same token for all, or the same failure for
    all. *)
Theorem single_flight (margin : Z) (m : TokenManager.t)
  (calls : list (nat * Z)) (now : Z) (reply : TokenManager.Reply) :
  TokenManager.pending m = None ->
  (2 <= length calls)%nat ->
  Forall (TokenManager.stale margin m) calls ->
  let out :=
    snd (TokenManager.run margin m
           (TokenManager.calls_of calls ++ [TokenManager.Complete now reply])%list) in
  TokenManager.requests out = 1%nat /\
  TokenManager.settlements out
  = map (fun c => (fst c, TokenManager.result_of reply)) calls.
Proof.
  intros Hp Hn Hs out. subst out.
  destruct calls as [|call rest]; [simpl in Hn; lia|].
  rewrite (overlapping_calls margin m call rest now reply Hp Hs).
  cbn [TokenManager.requests TokenManager.settlements].
  rewrite requests_settled, settlements_settled, map_map. split; reflexivity.
Qed.

Lemma single_flight_three_callers :
  let out :=
    snd (TokenManager.run 60 (TokenManager.new "client-id" "client-secret")
           [TokenManager.Call 1 0; TokenManager.Call 2 0; TokenManager.Call 3 1;
            TokenManager.Complete 2 (TokenManager.Granted "T1" 3600)]) in
  TokenManager.requests out = 1%nat /\
  TokenManager.settlements out
  = [(1%nat, TokenManager.Resolved "T1"); (2%nat, TokenManager.Resolved "T1");
     (3%nat, TokenManager.Resolved "T1")].
Proof.
  apply (single_flight 60 (TokenManager.new "client-id" "client-secret")
           [(1%nat, 0); (2%nat, 0); (3%nat, 1)] 2 (TokenManager.Granted "T1" 3600)).
  - reflexivity.
  - simpl. lia.
  - repeat constructor.
Defined.

(** C8.  Expiry: a call made while the cached token expires more than the
    safety margin in the future returns that token at once, sends nothing
    and leaves the manager as it was.  A call made while the cached token
    expires within the margin, or has expired, is not resolved at once and
    leaves exactly one refresh request in flight: the one already pending
    if there is one, and otherwise one that this call sends. *)
Theorem expiry_correctness (margin : Z) (m : TokenManager.t)
  (a : TokenManager.AccessToken) (caller : nat) (now : Z) :
  TokenManager.cached m = Some a ->
  (margin < TokenManager.expiresAt a - now ->
   TokenManager.getToken margin caller now m
   = (m, [TokenManager.Settled caller (TokenManager.Resolved (TokenManager.token a))]))
  /\
  (TokenManager.expiresAt a - now <= margin ->
   let (m', out) := TokenManager.getToken margin caller now m in
   (TokenManager.in_flight m + TokenManager.requests out = 1)%nat /\
   TokenManager.in_flight m' = 1%nat /\
   TokenManager.settlements out = [] /\
   (TokenManager.pending m = None -> out = [TokenManager.TokenRequest])).
Proof.
  intros Hc. unfold TokenManager.getToken, TokenManager.usable. rewrite Hc. split.
  - intros H. destruct (Z.ltb_spec now (TokenManager.expiresAt a - margin));
      [reflexivity | lia].
  - intros H. destruct (Z.ltb_spec now (TokenManager.expiresAt a - margin)); [lia|].
    unfold TokenManager.in_flight.
    destruct (TokenManager.pending m) as [ws|]; simpl.
    + repeat split; try reflexivity. discriminate.
    + repeat split; reflexivity.
Qed.

Lemma expiry_correctness_scenario :
  TokenManager.getToken 60 7 10 manager_with_T1
  = (manager_with_T1, [TokenManager.Settled 7 (TokenManager.Resolved "T1")])
  /\
  TokenManager.requests (snd (TokenManager.getToken 60 7 3570 manager_with_T1)) = 1%nat.
Proof.
  destruct (expiry_correctness 60 manager_with_T1
              {| TokenManager.token := "T1"; TokenManager.expiresAt := 3600 |}
              7 10 eq_refl) as [Fresh _].
  destruct (expiry_correctness 60 manager_with_T1
              {| TokenManager.token := "T1"; TokenManager.expiresAt := 3600 |}
              7 3570 eq_refl) as [_ Stale].
  split.
  - apply Fresh. simpl. lia.
  - assert (L : TokenManager.expiresAt
                  {| TokenManager.token := "T1"; TokenManager.expiresAt := 3600 |}
                - 3570 <= 60) by (simpl; lia).
    specialize (Stale L).
    destruct (TokenManager.getToken 60 7 3570 manager_with_T1) as [m' out].
    destruct Stale as [_ [_ [_ S]]]. rewrite (S eq_refl). reflexivity.
Defined.

(** * Further properties *)

(** ** [sanitizeErrorMessage]: what it can say and what it reads *)

(** X1.  The vocabulary of [sanitizeErrorMessage] is closed: whatever the
    error, the text is one of eight fixed texts, or it is the text that
    quotes the status line, [Request failed with status N: T], where [N] is
    a status with no case of its own and [T] is the status text of the
    response (or [Unknown error] when that is missing or empty). *)
Theorem sanitize_vocabulary (error : JsError) :
  In (sanitizeErrorMessage error) fixed_texts
  \/ exists s r,
       response_status error = Some (s, r)
       /\ kind_of_status s = None
       /\ sanitizeErrorMessage error
          = "Request failed with status " ++ Number_toString s ++ ": "
            ++ or_else (statusText r) "Unknown error".
Proof.
  destruct (response_status error) as [[s r]|] eqn:R.
  - rewrite (sanitize_by_status error s r R).
    destruct (kind_of_status s) as [k|] eqn:K.
    + left. unfold fixed_texts. destruct k; simpl; tauto.
    + right. exists s, r. split; [reflexivity | split; [exact K | reflexivity]].
  - left. unfold sanitizeErrorMessage. rewrite R.
    destruct (strict_eq (code error) "ECONNREFUSED" || strict_eq (code error) "ENOTFOUND").
    + simpl. tauto.
    + destruct (strict_eq (code error) "ECONNABORTED" || message_includes error "timeout");
        simpl; tauto.
Qed.

(** X2.  [sanitizeErrorMessage] reads four things only: the status and the
    status text of the response, the error code and the error message.  Two
    errors that agree on these get the same text, whatever their response
    bodies and request configurations are. *)
Theorem sanitize_reads_four_fields (e1 e2 : JsError) :
  option_map (fun r => (status r, statusText r)) (response e1)
  = option_map (fun r => (status r, statusText r)) (response e2) ->
  code e1 = code e2 ->
  message e1 = message e2 ->
  sanitizeErrorMessage e1 = sanitizeErrorMessage e2.
Proof.
  intros Hr Hc Hm.
  unfold sanitizeErrorMessage, response_status, message_includes.
  rewrite Hc, Hm.
  destruct (response e1) as [[s1 t1 b1]|], (response e2) as [[s2 t2 b2]|];
    simpl in Hr; try discriminate; [|reflexivity].
  injection Hr as Hs Ht. subst s2 t2. simpl.
  destruct (s1 =? 0); reflexivity.
Qed.

Lemma sanitize_reads_four_fields_teapot :
  sanitizeErrorMessage
    {| response := Some {| status := 418; statusText := Some "I'm a teapot";
                           body := marketo_error_body |};
       code := Some "ERR_BAD_REQUEST";
       message := Some "Request failed with status code 418";
       config := None |}
  = sanitizeErrorMessage teapot.
Proof.
  apply sanitize_reads_four_fields; reflexivity.
Defined.

(** X3.  The response status comes first: when an error carries a (non-zero)
    response status, its code and its message play no part in the text. *)
Theorem sanitize_status_overrides_code (error : JsError) (c m : option string) :
  response_status error <> None ->
  sanitizeErrorMessage (with_code_and_message c m error)
  = sanitizeErrorMessage error.
Proof.
  intros H. unfold sanitizeErrorMessage.
  change (response_status (with_code_and_message c m error))
    with (response_status error).
  destruct (response_status error) as [[s r]|]; [reflexivity | contradiction].
Qed.

Lemma sanitize_status_overrides_code_teapot :
  sanitizeErrorMessage
    (with_code_and_message (Some "ECONNABORTED") (Some "timeout of 30000ms exceeded")
       teapot)
  = sanitizeErrorMessage teapot.
Proof.
  apply sanitize_status_overrides_code. discriminate.
Defined.

(** X4.  A response whose status is 0 counts as no response: the text is the
    one that the code and the message alone give. *)
Theorem sanitize_status_zero (error : JsError) (r : AxiosResponse) :
  response error = Some r ->
  status r = 0 ->
  sanitizeErrorMessage error = sanitizeErrorMessage (without_response error).
Proof.
  intros H Hs. unfold sanitizeErrorMessage, response_status, message_includes.
  rewrite H, Hs. reflexivity.
Qed.

Lemma sanitize_status_zero_sample :
  sanitizeErrorMessage
    {| response := Some {| status := 0; statusText := None; body := JsNull |};
       code := Some "ECONNABORTED"; message := None; config := None |}
  = "Request timed out. Please try again.".
Proof.
  rewrite (sanitize_status_zero _ {| status := 0; statusText := None; body := JsNull |});
    reflexivity.
Defined.

(** ** [makeApiRequest]: what every run looks like *)

(** The request of a run, field by field. *)
Lemma makeApiRequest_request (w : World) (core : Core) (endpoint method : string)
  (d : RequestData) (ct : option string) (q : AxiosRequestConfig) :
  In (HttpCall q) (trace (makeApiRequest core endpoint method d ct w)) ->
  exists token,
    getToken_settles w = inr token
    /\ q = {| url := MARKETO_BASE_URL (settings core) ++ endpoint;
              method := method;
              data :=
                (let contentType :=
                   match ct with Some c => c | None => "application/json" end in
                 if String.eqb contentType "application/x-www-form-urlencoded"
                 then JsString (URLSearchParams_toString (URLSearchParams_new d))
                 else RequestData_value d);
              headers :=
                (let contentType :=
                   match ct with Some c => c | None => "application/json" end in
                 if truthy contentType
                 then set_header [("Authorization", "Bearer " ++ token)]
                                 "Content-Type" contentType
                 else [("Authorization", "Bearer " ++ token)]);
              timeout := API_REQUEST_TIMEOUT |}.
Proof.
  unfold makeApiRequest, tokenManager_getToken, axios.
  cbv [bind try_catch emit throw ret trace fst].
  destruct (getToken_settles w) as [e|token].
  - simpl. intros [H|[]]. discriminate.
  - match goal with |- context [axios_settles w ?q0] =>
      destruct (axios_settles w q0) as [e|resp] end;
      simpl; intros H; exists token; (split; [reflexivity|]); the_call H;
      subst q; reflexivity.
Qed.

(** X5.  When the token manager rejects, [makeApiRequest] throws that very
    error without calling the platform and without writing a log line (the
    token is awaited outside the [try]); the handler answers with the
    sanitized text of that error. *)
Theorem makeApiRequest_without_token (w : World) (core : Core)
  (endpoint method : string) (d : RequestData) (ct : option string)
  (e : JsError) :
  getToken_settles w = inl e ->
  makeApiRequest core endpoint method d ct w = ([GetToken], inl e) /\
  tool core endpoint method d ct w
  = ([GetToken], inr (ErrorLine ("Error: " ++ sanitizeErrorMessage e))).
Proof.
  intros H.
  assert (R : makeApiRequest core endpoint method d ct w = ([GetToken], inl e)).
  { unfold makeApiRequest, tokenManager_getToken. cbv [bind]. rewrite H. reflexivity. }
  split; [exact R|]. rewrite tool_after_makeApiRequest, R. reflexivity.
Qed.

Lemma makeApiRequest_without_token_sample :
  makeApiRequest sample_core "/rest/v1/leads.json" "GET" Omitted None tokenless_world
  = ([GetToken], inl (status_error 401 "Unauthorized" marketo_error_body)) /\
  tool sample_core "/rest/v1/leads.json" "GET" Omitted None tokenless_world
  = ([GetToken],
     inr (ErrorLine
            "Error: Authentication failed. Please check your Marketo credentials.")).
Proof.
  apply (makeApiRequest_without_token tokenless_world sample_core
           "/rest/v1/leads.json" "GET" Omitted None
           (status_error 401 "Unauthorized" marketo_error_body)).
  reflexivity.
Defined.

(** X6.  [makeApiRequest] never retries: in every world a run asks the
    token manager exactly once and calls the platform at most once, and it
    writes a log line only after a call. *)
Theorem makeApiRequest_never_retries (w : World) (core : Core)
  (endpoint method : string) (d : RequestData) (ct : option string) :
  let t := trace (makeApiRequest core endpoint method d ct w) in
  token_requests t = 1%nat /\
  (length (http_calls t) <= 1)%nat /\
  (forall line, In (ConsoleError line) t -> length (http_calls t) = 1%nat).
Proof.
  intros t. subst t.
  destruct (makeApiRequest_runs w core endpoint method d ct)
    as [[e [_ R]] | [token [q0 [_ [_ [_ [_ [[r [_ R]] | [e [line0 [_ R]]]]]]]]]]];
    rewrite R; cbn [trace fst token_requests http_calls length];
    (split; [reflexivity|]); (split; [lia|]); intros line H; simpl in H.
  - destruct H as [H|[]]. discriminate.
  - reflexivity.
  - reflexivity.
Qed.

(** X7.  A tool handler never throws: whatever the world does, it answers
    with the pretty-printed payload that [makeApiRequest] returned, or,
    when [makeApiRequest] threw, with one line that starts with [Error: ]
    and continues with the sanitized text of the error thrown; and it adds
    no event to those of [makeApiRequest]. *)
Theorem tool_never_throws (w : World) (core : Core)
  (endpoint method : string) (d : RequestData) (ct : option string) :
  trace (tool core endpoint method d ct w)
  = trace (makeApiRequest core endpoint method d ct w)
  /\
  ((exists payload,
       outcome (makeApiRequest core endpoint method d ct w) = inr payload /\
       outcome (tool core endpoint method d ct w) = inr (Pretty payload))
   \/
   (exists e,
       outcome (makeApiRequest core endpoint method d ct w) = inl e /\
       outcome (tool core endpoint method d ct w)
       = inr (ErrorLine ("Error: " ++ sanitizeErrorMessage e)))).
Proof.
  rewrite tool_after_makeApiRequest.
  destruct (makeApiRequest core endpoint method d ct w) as [t [e|v]].
  - split; [reflexivity|]. right. exists e. split; reflexivity.
  - split; [reflexivity|]. left. exists v. split; reflexivity.
Qed.

(** X8.  Every request that [makeApiRequest] hands to the transport goes to
    the base URL followed by the endpoint, with the caller's method and the
    30 second timeout, and carries the token that the manager resolved with
    as [Authorization: Bearer <token>].  Its Content-Type header is the
    content type given (application/json when none is given), and there is
    no such header when the content type given is the empty string. *)
Theorem makeApiRequest_envelope (w : World) (core : Core)
  (endpoint verb : string) (d : RequestData) (ct : option string)
  (q : AxiosRequestConfig) :
  In (HttpCall q) (trace (makeApiRequest core endpoint verb d ct w)) ->
  exists token,
    getToken_settles w = inr token
    /\ url q = MARKETO_BASE_URL (settings core) ++ endpoint
    /\ method q = verb
    /\ timeout q = 30000
    /\ get_header (headers q) "Authorization" = Some ("Bearer " ++ token)
    /\ get_header (headers q) "Content-Type"
       = match ct with
         | None => Some "application/json"
         | Some c => if truthy c then Some c else None
         end.
Proof.
  intros H.
  destruct (makeApiRequest_request w core endpoint verb d ct q H) as [token [T Q]].
  exists token. subst q. cbn [url method timeout headers].
  split; [exact T|]. repeat (split; [reflexivity|]).
  destruct ct as [[|a c]|]; split; reflexivity.
Qed.

Lemma makeApiRequest_envelope_clone_form :
  exists token,
    getToken_settles sample_world = inr token
    /\ url clone_form_request
       = "https://123-ABC-456.mktorest.com" ++ "/asset/v1/form/7/clone.json"
    /\ method clone_form_request = "POST"
    /\ timeout clone_form_request = 30000
    /\ get_header (headers clone_form_request) "Authorization"
       = Some ("Bearer " ++ token)
    /\ get_header (headers clone_form_request) "Content-Type"
       = Some "application/x-www-form-urlencoded".
Proof.
  apply (makeApiRequest_envelope sample_world sample_core
           "/asset/v1/form/7/clone.json" "POST" (ObjectLiteral clone_form_data)
           (Some "application/x-www-form-urlencoded") clone_form_request).
  simpl. right. left. reflexivity.
Defined.

(** X9.  When the platform call fails, with whatever error, the run is the
    token request, that one call and one log line, and the error thrown is
    the error of the call, unchanged.  The log line is made of the method,
    the endpoint and the error's code, or its message when it has no code;
    it does not change with the response body or with the request
    configuration of the error. *)
Theorem makeApiRequest_failure (w : World) (core : Core)
  (endpoint verb : string) (d : RequestData) (ct : option string)
  (q : AxiosRequestConfig) (e : JsError) :
  In (HttpCall q) (trace (makeApiRequest core endpoint verb d ct w)) ->
  axios_settles w q = inl e ->
  makeApiRequest core endpoint verb d ct w
  = ([GetToken; HttpCall q;
      ConsoleError ("API request failed: " ++ verb ++ " " ++ endpoint ++ " - "
                    ++ code_or_message e)],
     inl e)
  /\ (forall c0, code e = Some c0 -> c0 <> "" -> code_or_message e = c0)
  /\ (forall b c, code_or_message (with_body b (with_config c e)) = code_or_message e).
Proof.
  intros H A.
  destruct (makeApiRequest_request w core endpoint verb d ct q H) as [token [T Q]].
  split; [|split].
  - unfold makeApiRequest, tokenManager_getToken, axios.
    cbv [bind try_catch emit throw ret]. rewrite T.
    cbv zeta in Q. rewrite <- Q, A. reflexivity.
  - intros c0 Hc Hne. unfold code_or_message. rewrite Hc.
    apply truthy_true in Hne. rewrite Hne. reflexivity.
  - intros b c. reflexivity.
Qed.

Lemma makeApiRequest_failure_sample :
  trace (makeApiRequest sample_core "/rest/v1/leads.json" "GET" Omitted None
           unauthorized_world)
  = [GetToken;
     HttpCall {| url := "https://123-ABC-456.mktorest.com/rest/v1/leads.json";
                 method := "GET";
                 data := JsUndefined;
                 headers := [("Authorization", "Bearer T1");
                             ("Content-Type", "application/json")];
                 timeout := API_REQUEST_TIMEOUT |};
     ConsoleError "API request failed: GET /rest/v1/leads.json - ERR_BAD_REQUEST"].
Proof.
  destruct (makeApiRequest_failure unauthorized_world sample_core
              "/rest/v1/leads.json" "GET" Omitted None
              {| url := "https://123-ABC-456.mktorest.com/rest/v1/leads.json";
                 method := "GET";
                 data := JsUndefined;
                 headers := [("Authorization", "Bearer T1");
                             ("Content-Type", "application/json")];
                 timeout := API_REQUEST_TIMEOUT |}
              (status_error 401 "Unauthorized" marketo_error_body)) as [R _].
  - simpl. right. left. reflexivity.
  - reflexivity.
  - rewrite R. reflexivity.
Defined.

(** ** constants.ts and start-up: edges and composition *)

Lemma endsWith_slashes (x : string) (n : nat) :
  endsWith (x ++ slashes (S n)) "/" = true.
Proof.
  induction x as [|c x IH].
  - induction n as [|n IHn].
    + reflexivity.
    + change (slashes (S (S n))) with (String "/" (slashes (S n))).
      cbn [append endsWith]. cbn [append] in IHn. rewrite IHn. apply orb_true_r.
  - cbn [append endsWith]. rewrite IH. apply orb_true_r.
Qed.

Lemma append_empty_r (s : string) : s ++ "" = s.
Proof. induction s as [|c s IH]; simpl; [|rewrite IH]; reflexivity. Qed.

Lemma replace_trailing_slashes_fixed (s : string) :
  replace_trailing_slashes s = s <-> endsWith s "/" = false.
Proof.
  split.
  - intros H. rewrite <- H. apply replace_trailing_slashes_tail.
  - intros H. destruct (replace_trailing_slashes_cuts_a_run s) as [[|n] E].
    + simpl in E. rewrite append_empty_r in E. symmetry. exact E.
    + rewrite E, endsWith_slashes in H. discriminate.
Qed.

(** X10.  An accepted base URL is returned unchanged exactly when it does
    not end with a slash. *)
Theorem validateMarketoUrl_identity (w : World) (url : string) :
  url <> "" ->
  https_url w url ->
  (outcome (validateMarketoUrl url w) = inr url <-> endsWith url "/" = false).
Proof.
  intros Hne [u [P S]].
  rewrite validateMarketoUrl_outcome, P.
  apply truthy_true in Hne. rewrite Hne.
  apply String.eqb_eq in S. rewrite S.
  rewrite <- replace_trailing_slashes_fixed. split.
  - intros H. injection H as H. exact H.
  - intros H. rewrite H. reflexivity.
Qed.

Lemma validateMarketoUrl_identity_sample :
  outcome (validateMarketoUrl "https://123-ABC-456.mktorest.com" sample_world)
  = inr "https://123-ABC-456.mktorest.com"
  <-> endsWith "https://123-ABC-456.mktorest.com" "/" = false.
Proof.
  apply (validateMarketoUrl_identity sample_world "https://123-ABC-456.mktorest.com").
  - discriminate.
  - eexists. split; reflexivity.
Defined.

(** X11.  Removing the trailing slashes is idempotent: doing it to a base
    URL that has been through it changes nothing. *)
Theorem replace_trailing_slashes_idempotent (s : string) :
  replace_trailing_slashes (replace_trailing_slashes s)
  = replace_trailing_slashes s.
Proof.
  apply replace_trailing_slashes_fixed, replace_trailing_slashes_tail.
Qed.


(** X13.  The base URL is checked before the credentials: when
    [validateMarketoUrl] rejects the configured base URL, start-up fails
    with that very error, whether the credentials are there or not. *)
Theorem startup_reports_url_first (w : World) (e : JsError) :
  outcome (validateMarketoUrl (configured w "MARKETO_BASE_URL") w) = inl e ->
  outcome (startup w) = inl e.
Proof.
  intros H. rewrite startup_outcome, H. reflexivity.
Qed.

Lemma startup_reports_url_first_sample :
  outcome (startup empty_world)
  = inl (Error "MARKETO_BASE_URL is not a valid URL: ftp//nowhere").
Proof.
  apply (startup_reports_url_first empty_world). reflexivity.
Defined.

(** X14.  Start-up and requests compose: for the core that start-up
    constructs, the settings hold the credentials as configured (both
    non-empty) and the configured base URL without its trailing slashes,
    and every request goes to that base, which does not end with a slash,
    followed by the endpoint. *)
Theorem startup_then_request (w : World) (core : Core) :
  outcome (startup w) = inr core ->
  MARKETO_BASE_URL (settings core)
  = replace_trailing_slashes (configured w "MARKETO_BASE_URL")
  /\ endsWith (MARKETO_BASE_URL (settings core)) "/" = false
  /\ MARKETO_CLIENT_ID (settings core) = configured w "MARKETO_CLIENT_ID"
  /\ MARKETO_CLIENT_SECRET (settings core) = configured w "MARKETO_CLIENT_SECRET"
  /\ MARKETO_CLIENT_ID (settings core) <> ""
  /\ MARKETO_CLIENT_SECRET (settings core) <> ""
  /\ forall (w' : World) (endpoint verb : string) (d : RequestData)
            (ct : option string) (q : AxiosRequestConfig),
       In (HttpCall q) (trace (makeApiRequest core endpoint verb d ct w')) ->
       url q = replace_trailing_slashes (configured w "MARKETO_BASE_URL") ++ endpoint.
Proof.
  rewrite startup_outcome, validateMarketoUrl_outcome.
  destruct (truthy (configured w "MARKETO_BASE_URL")); [|discriminate].
  destruct (URL_new w (configured w "MARKETO_BASE_URL")) as [u|]; [|discriminate].
  destruct (String.eqb (protocol u) "https:"); [|discriminate].
  destruct (truthy (configured w "MARKETO_CLIENT_ID")) eqn:Ti; [|discriminate].
  destruct (truthy (configured w "MARKETO_CLIENT_SECRET")) eqn:Ts; [|discriminate].
  cbn [andb]. intros H. injection H as H. subst core. cbn [settings MARKETO_BASE_URL
    MARKETO_CLIENT_ID MARKETO_CLIENT_SECRET].
  split; [reflexivity|]. split; [apply replace_trailing_slashes_tail|].
  split; [reflexivity|]. split; [reflexivity|].
  split; [apply truthy_true, Ti|]. split; [apply truthy_true, Ts|].
  intros w' endpoint verb d ct q Hq.
  destruct (makeApiRequest_request w' _ endpoint verb d ct q Hq) as [token [_ Q]].
  subst q. reflexivity.
Qed.

Lemma startup_then_request_sample :
  MARKETO_BASE_URL (settings sample_core) = "https://123-ABC-456.mktorest.com"
  /\ endsWith (MARKETO_BASE_URL (settings sample_core)) "/" = false.
Proof.
  destruct (startup_then_request sample_world sample_core eq_refl)
    as [B [E _]].
  split; [exact B | exact E].
Defined.

(** ** Form encoding: separators and injectivity *)

Lemma all_chars_append (P : ascii -> bool) (a b : string) :
  all_chars P (a ++ b) = all_chars P a && all_chars P b.
Proof.
  induction a as [|c a IH]; simpl; [reflexivity|].
  rewrite IH. apply andb_assoc.
Qed.

(** A byte that no byte of [s] is does not occur in [s]. *)
Lemma includes_none (P : ascii -> bool) (c : ascii) (s : string) :
  all_chars P s = true -> P c = false -> includes s (String c "") = false.
Proof.
  intros H Hc. induction s as [|a s IH]; [reflexivity|].
  simpl in H. apply andb_true_iff in H. destruct H as [Ha Hs].
  cbn [includes prefix]. rewrite (IH Hs), orb_false_r.
  destruct (ascii_dec c a) as [E|_]; [|reflexivity].
  subst a. congruence.
Qed.

Lemma hex_digit_safe (c : ascii) :
  urlencoded_safe (hex_digit (N_of_ascii c / 16)) = true /\
  urlencoded_safe (hex_digit (N_of_ascii c mod 16)) = true.
Proof.
  destruct c as [[] [] [] [] [] [] [] []]; split; vm_compute; reflexivity.
Qed.

Lemma urlencoded_byte_serialize_alphabet (s : string) :
  all_chars form_alphabet (urlencoded_byte_serialize s) = true.
Proof.
  induction s as [|c s IH]; [reflexivity|].
  cbn [urlencoded_byte_serialize]. rewrite all_chars_append, IH, andb_true_r.
  destruct (Ascii.eqb c " "); [reflexivity|].
  destruct (urlencoded_safe c) eqn:S.
  - unfold form_alphabet. simpl. rewrite S. reflexivity.
  - destruct (hex_digit_safe c) as [H L].
    unfold percent_encode_byte, form_alphabet. cbn [all_chars].
    rewrite H, L. reflexivity.
Qed.

Lemma urlencoded_byte_serialize_free (s : string) (c : ascii) :
  form_alphabet c = false ->
  includes (urlencoded_byte_serialize s) (String c "") = false.
Proof.
  intros H. apply (includes_none form_alphabet); [|exact H].
  apply urlencoded_byte_serialize_alphabet.
Qed.

(** X15.  A form-encoded key or value contains safe bytes, [+] and [%]
    only: no other byte occurs in it, so no [&], no [=], no space, no [/],
    no [?] and no [#], whatever the text that was encoded. *)
Theorem urlencoded_byte_serialize_no_separator (s : string) (c : ascii) :
  form_alphabet c = false ->
  all_chars form_alphabet (urlencoded_byte_serialize s) = true /\
  includes (urlencoded_byte_serialize s) (String c "") = false.
Proof.
  intros H. split.
  - apply urlencoded_byte_serialize_alphabet.
  - apply urlencoded_byte_serialize_free, H.
Qed.

Lemma urlencoded_byte_serialize_no_separator_sample :
  all_chars form_alphabet (urlencoded_byte_serialize "Q3 Launch & Follow-up=1") = true /\
  includes (urlencoded_byte_serialize "Q3 Launch & Follow-up=1") "&" = false.
Proof.
  apply (urlencoded_byte_serialize_no_separator "Q3 Launch & Follow-up=1" "&").
  reflexivity.
Defined.

Lemma hex_round_trip (c : ascii) :
  ascii_of_N (16 * hex_value (hex_digit (N_of_ascii c / 16))
              + hex_value (hex_digit (N_of_ascii c mod 16))) = c.
Proof.
  destruct c as [[] [] [] [] [] [] [] []]; vm_compute; reflexivity.
Qed.

Lemma safe_not_plus_or_percent (c : ascii) :
  urlencoded_safe c = true -> Ascii.eqb c "+" = false /\ Ascii.eqb c "%" = false.
Proof.
  intros H. split.
  - destruct (Ascii.eqb_spec c "+") as [E|]; [subst c; discriminate | reflexivity].
  - apply percent_not_safe, H.
Qed.

(** Decoding what the serializer wrote gives the text back. *)
Lemma percent_decode_serialize (s : string) :
  percent_decode (urlencoded_byte_serialize s) = s.
Proof.
  induction s as [|c s IH]; [reflexivity|].
  cbn [urlencoded_byte_serialize].
  destruct (Ascii.eqb_spec c " ") as [E|_].
  - subst c. simpl. rewrite IH. reflexivity.
  - destruct (urlencoded_safe c) eqn:S.
    + destruct (safe_not_plus_or_percent c S) as [Hp Hq].
      cbn [append percent_decode]. rewrite Hp, Hq, IH. reflexivity.
    + unfold percent_encode_byte. cbn [append percent_decode].
      change (Ascii.eqb "%" "+") with false. change (Ascii.eqb "%" "%") with true.
      cbv iota. rewrite hex_round_trip, IH. reflexivity.
Qed.

(** X16.  The form encoding loses nothing: two different texts never have
    the same encoding. *)
Theorem urlencoded_byte_serialize_injective (a b : string) :
  a <> b ->
  urlencoded_byte_serialize a <> urlencoded_byte_serialize b.
Proof.
  intros H E. apply H.
  rewrite <- (percent_decode_serialize a), <- (percent_decode_serialize b), E.
  reflexivity.
Qed.

Lemma urlencoded_byte_serialize_injective_sample :
  urlencoded_byte_serialize "a b" <> urlencoded_byte_serialize "a+b".
Proof.
  apply (urlencoded_byte_serialize_injective "a b" "a+b"). discriminate.
Defined.

(** Texts free of a separator byte, cut at the first separator. *)
Lemma cut_at_separator (c : ascii) (x y r r' : string) :
  includes x (String c "") = false ->
  includes y (String c "") = false ->
  x ++ String c r = y ++ String c r' ->
  x = y /\ r = r'.
Proof.
  revert y. induction x as [|a x IH]; intros [|b y] Hx Hy E; simpl in E.
  - injection E as E. split; [reflexivity | exact E].
  - injection E as E1 E2. subst b. cbn [includes prefix] in Hy.
    destruct (ascii_dec c c) as [_|N]; [|contradiction].
    destruct y; discriminate.
  - injection E as E1 E2. subst a. cbn [includes prefix] in Hx.
    destruct (ascii_dec c c) as [_|N]; [|contradiction].
    destruct x; discriminate.
  - injection E as E1 E2. subst b.
    cbn [includes] in Hx, Hy.
    apply orb_false_iff in Hx. apply orb_false_iff in Hy.
    destruct (IH y (proj2 Hx) (proj2 Hy) E2) as [Q R].
    subst y. split; [reflexivity | exact R].
Qed.

Lemma no_separator_inside (c : ascii) (x y r : string) :
  includes x (String c "") = false -> x <> y ++ String c r.
Proof.
  intros H E. subst x.
  change (y ++ String c r) with (y ++ String c "" ++ r) in H.
  rewrite includes_inside in H. discriminate.
Qed.

Lemma includes_append_false (a b : string) (c : ascii) :
  includes a (String c "") = false ->
  includes b (String c "") = false ->
  includes (a ++ b) (String c "") = false.
Proof.
  intros Ha Hb. induction a as [|x a IH]; [exact Hb|].
  cbn [includes prefix append] in *.
  apply orb_false_iff in Ha. destruct Ha as [Hp Ha].
  rewrite (IH Ha), orb_false_r.
  destruct (ascii_dec c x); [|reflexivity].
  destruct a; simpl in *; destruct b; simpl in *; discriminate.
Qed.

Lemma item_no_ampersand (p : string * string) :
  includes (form_pair p) "&" = false.
Proof.
  unfold form_pair. apply includes_append_false.
  - apply urlencoded_byte_serialize_free. reflexivity.
  - change ("=" ++ urlencoded_byte_serialize (snd p))
      with (String "=" (urlencoded_byte_serialize (snd p))).
    cbn [includes prefix].
    rewrite (urlencoded_byte_serialize_free (snd p) "&" eq_refl).
    reflexivity.
Qed.

Lemma item_not_empty (p : string * string) : form_pair p <> "".
Proof.
  unfold form_pair. destruct (urlencoded_byte_serialize (fst p)); discriminate.
Qed.

Lemma item_injective (p p' : string * string) : form_pair p = form_pair p' -> p = p'.
Proof.
  destruct p as [k v], p' as [k' v']. unfold form_pair. cbn [fst snd]. intros E.
  destruct (cut_at_separator "=" _ _ _ _
              (urlencoded_byte_serialize_free k "=" eq_refl)
              (urlencoded_byte_serialize_free k' "=" eq_refl) E) as [Ek Ev].
  f_equal.
  - rewrite <- (percent_decode_serialize k), <- (percent_decode_serialize k'), Ek.
    reflexivity.
  - rewrite <- (percent_decode_serialize v), <- (percent_decode_serialize v'), Ev.
    reflexivity.
Qed.

Lemma concat_cons (x y : string) (l : list string) :
  String.concat "&" (x :: y :: l) = x ++ String "&" (String.concat "&" (y :: l)).
Proof. reflexivity. Qed.

(** Joining with [&] texts that are not empty and hold no [&] can be
    undone. *)
Lemma concat_ampersand_injective (xs : list string) :
  forall ys,
    Forall (fun x => includes x "&" = false /\ x <> "") xs ->
    Forall (fun x => includes x "&" = false /\ x <> "") ys ->
    String.concat "&" xs = String.concat "&" ys ->
    xs = ys.
Proof.
  induction xs as [|x xs IH]; intros [|y ys] Hx Hy E.
  - reflexivity.
  - exfalso. inversion Hy as [|? ? [_ Ny] _]; subst.
    destruct ys; [simpl in E; congruence|].
    rewrite concat_cons in E. destruct y; [congruence | discriminate].
  - exfalso. inversion Hx as [|? ? [_ Nx] _]; subst.
    destruct xs; [simpl in E; congruence|].
    rewrite concat_cons in E. destruct x; [congruence | discriminate].
  - inversion Hx as [|? ? [Ax Nx] Fx]; subst.
    inversion Hy as [|? ? [Ay Ny] Fy]; subst.
    destruct xs as [|x2 xs], ys as [|y2 ys].
    + simpl in E. subst. reflexivity.
    + exfalso. rewrite concat_cons in E. cbn [String.concat] in E.
      exact (no_separator_inside "&" x y _ Ax E).
    + exfalso. rewrite concat_cons in E. cbn [String.concat] in E.
      symmetry in E. exact (no_separator_inside "&" y x _ Ay E).
    + rewrite !concat_cons in E.
      destruct (cut_at_separator "&" x y _ _ Ax Ay E) as [Q R].
      subst y. f_equal. exact (IH _ Fx Fy R).
Qed.

Lemma URLSearchParams_toString_inverse (ps qs : list (string * string)) :
  URLSearchParams_toString ps = URLSearchParams_toString qs -> ps = qs.
Proof.
  unfold URLSearchParams_toString. change (fun p : string * string => urlencoded_byte_serialize (fst p) ++ "=" ++ urlencoded_byte_serialize (snd p)) with form_pair. intros E.
  apply concat_ampersand_injective in E.
  - revert qs E. induction ps as [|p ps IH]; intros [|q qs] E; try discriminate.
    + reflexivity.
    + simpl in E. injection E as E1 E2.
      f_equal; [apply item_injective, E1 | apply IH, E2].
  - apply Forall_forall. intros x Hx. apply in_map_iff in Hx.
    destruct Hx as [p [Hp _]]. subst x.
    split; [apply item_no_ampersand | apply item_not_empty].
  - apply Forall_forall. intros x Hx. apply in_map_iff in Hx.
    destruct Hx as [p [Hp _]]. subst x.
    split; [apply item_no_ampersand | apply item_not_empty].
Qed.

(** X17.  [URLSearchParams.toString] is unambiguous: two different lists of
    parameters never give the same text.  In particular a value that holds
    [&] or [=] cannot pass for further parameters. *)
Theorem URLSearchParams_toString_injective (ps qs : list (string * string)) :
  ps <> qs ->
  URLSearchParams_toString ps <> URLSearchParams_toString qs.
Proof.
  intros H E. apply H, URLSearchParams_toString_inverse, E.
Qed.

Lemma URLSearchParams_toString_injective_sample :
  URLSearchParams_toString [("a", "b&c=d")]
  <> URLSearchParams_toString [("a", "b"); ("c", "d")].
Proof.
  apply (URLSearchParams_toString_injective [("a", "b&c=d")] [("a", "b"); ("c", "d")]).
  discriminate.
Defined.






(** ** The lead-by-email tool *)





